(** * qgis_methodOtsu: Otsu water mask and water object classification

    A shallow embedding of the two processing algorithms of the plugin,
    [OtsuWaterMask.processAlgorithm] (methodOtsu.py) and
    [WaterObjectClassification.processAlgorithm] (waterClassify.py).

    Conventions of the model.
    - Raster samples are [NaN], an infinity or a finite value, a rational
      ([Q]). The result of an arithmetic operation is brought into its type
      by a rounding, a parameter of the model ([arithmetic]): the identity
      for arithmetic without rounding, a wrap-around for integer bands, any
      rounding with possible overflow for floating-point bands.
    - The geometry of the classifier (areas, lengths, distances) is in
      rationals.
    - A numpy 2-D array is its shape together with its row-major buffer.
    - Python exceptions are values of [exn]; code that can raise lives in a
      state-and-exception monad over the state it can change.
    - Library routines the plugin calls but does not define (the Otsu
      primitive of OpenCV, point distance, polygonization) are section
      variables; only what the proofs need of them is assumed. *)

From Stdlib Require Import ZArith QArith Qround Qminmax Qabs Lqa Lia.
From stdpp Require Import gmap strings list.

Local Open Scope Z_scope.

(** ** Exceptions and the state-and-exception monad *)

Inductive exn : Type :=
| AttributeError           (* attribute access on None *)
| ValueError               (* min or max of an empty sequence *)
| IndexError               (* list index out of range *)
| ZeroDivisionError
| QgsProcessingException.  (* raised by a processing algorithm *)

(** A computation that returns or raises. *)
Definition Exc (A : Type) : Type := (exn + A)%type.

#[global] Instance Exc_ret : MRet Exc := fun A (a : A) => inr a.
#[global] Instance Exc_bind : MBind Exc :=
  fun A B (k : A -> Exc B) (m : Exc A) =>
    match m with
    | inl e => inl e
    | inr a => k a
    end.
#[global] Instance Exc_throw : MThrow exn Exc := fun A (e : exn) => inl e.

(** A computation that also reads and changes a state [S]; the state reached
    when an exception is raised is kept. *)
Definition M (S A : Type) : Type := S -> Exc A * S.

#[global] Instance M_ret {S} : MRet (M S) :=
  fun A (a : A) s => (inr a, s).
#[global] Instance M_bind {S} : MBind (M S) :=
  fun A B (k : A -> M S B) (m : M S A) s =>
    match m s with
    | (inl e, s') => (inl e, s')
    | (inr a, s') => k a s'
    end.
#[global] Instance M_throw {S} : MThrow exn (M S) :=
  fun A (e : exn) s => (inl e, s).

Definition get {S} : M S S := fun s => (inr s, s).
Definition modify {S} (f : S -> S) : M S unit := fun s => (inr tt, f s).
Definition lift {S A} (r : Exc A) : M S A := fun s => (r, s).

(** [l[i]] of a Python list. *)
Definition item {A} (l : list A) (i : nat) : Exc A :=
  match l !! i with
  | Some a => inr a
  | None => inl IndexError
  end.

(** [a < b] on exact numbers. *)
Definition Qltb (a b : Q) : bool := negb (Qle_bool b a).

(** [min(l)] and [max(l)] of a Python list of numbers. *)
Definition py_min (l : list Q) : Exc Q :=
  match l with
  | [] => inl ValueError
  | a :: t => inr (fold_left Qmin t a)
  end.

Definition py_max (l : list Q) : Exc Q :=
  match l with
  | [] => inl ValueError
  | a :: t => inr (fold_left Qmax t a)
  end.

(** ** Samples *)

(** A sample is a NaN, an infinity or a finite value. *)
Inductive sample : Type :=
| NaN
| Inf (negative : bool)
| Fin (q : Q).

Definition isnan (x : sample) : bool :=
  match x with NaN => true | _ => false end.

(** [np.isfinite] *)
Definition isfinite (x : sample) : bool :=
  match x with Fin _ => true | _ => false end.

(** [a == b], [a != b] and [a >= b] of IEEE numbers: every comparison with a
    NaN is false, except [!=] which is true. *)
Definition feq (a b : sample) : bool :=
  match a, b with
  | Fin x, Fin y => Qeq_bool x y
  | Inf s, Inf t => Bool.eqb s t
  | _, _ => false
  end.

Definition fne (a b : sample) : bool := negb (feq a b).

Definition fge (a b : sample) : bool :=
  match a, b with
  | Fin x, Fin y => Qle_bool y x
  | Inf false, Fin _ => true
  | Inf false, Inf _ => true
  | Fin _, Inf true => true
  | Inf true, Inf true => true
  | _, _ => false
  end.

(** The sign of a value, [true] when negative. Zeros are taken positive. *)
Definition negative (q : Q) : bool := Qltb q 0.

(** Arithmetic. The result of an operation on finite values is its exact
    result brought into the result type by [r]: rounded, for a
    floating-point type, to a representable value or to an infinity when it
    overflows; wrapped for an integer type. Operations on an infinity or a
    NaN follow IEEE 754. *)
Definition fadd (r : Q -> sample) (a b : sample) : sample :=
  match a, b with
  | Fin x, Fin y => r (x + y)%Q
  | Inf s, Inf t => if Bool.eqb s t then Inf s else NaN
  | Inf s, Fin _ => Inf s
  | Fin _, Inf t => Inf t
  | _, _ => NaN
  end.

Definition fsub (r : Q -> sample) (a b : sample) : sample :=
  match a, b with
  | Fin x, Fin y => r (x - y)%Q
  | Inf s, Inf t => if Bool.eqb s t then NaN else Inf s
  | Inf s, Fin _ => Inf s
  | Fin _, Inf t => Inf (negb t)
  | _, _ => NaN
  end.

Definition fmul (r : Q -> sample) (a b : sample) : sample :=
  match a, b with
  | Fin x, Fin y => r (x * y)%Q
  | Inf s, Inf t => Inf (xorb s t)
  | Inf s, Fin y => if Qeq_bool y 0 then NaN else Inf (xorb s (negative y))
  | Fin x, Inf t => if Qeq_bool x 0 then NaN else Inf (xorb (negative x) t)
  | _, _ => NaN
  end.

Definition fdiv (r : Q -> sample) (a b : sample) : sample :=
  match a, b with
  | Fin x, Fin y =>
      if Qeq_bool y 0
      then (if Qeq_bool x 0 then NaN else Inf (negative x))
      else r (x / y)%Q
  | Inf s, Fin y => Inf (xorb s (negative y))
  | Fin _, Inf _ => Fin 0
  | _, _ => NaN
  end.

(** The arithmetic of a run: how the result of each operation of lines 53
    and 57 is brought into its type. The subtractions are carried out in
    the type of the band, the division and the product of line 53 in the
    floating-point type numpy derives from it; the division, product and
    sum of line 57 involve the Python float of the threshold. *)
Record arithmetic : Type := mk_arithmetic {
  r_sub : Q -> sample;     (* [arr_valid - arr_min], [arr_max - arr_min] *)
  r_div : Q -> sample;     (* [... / (arr_max - arr_min)] *)
  r_mul : Q -> sample;     (* [... * 255] *)
  r_tdiv : Q -> sample;    (* [threshold / 255.0] *)
  r_tmul : Q -> sample;    (* [(threshold / 255.0) * (arr_max - arr_min)] *)
  r_tadd : Q -> sample     (* [arr_min + ...] *)
}.

(** Arithmetic without rounding and without bound. *)
Definition exact : arithmetic := mk_arithmetic Fin Fin Fin Fin Fin Fin.

(** The arithmetic of an integer band, of 16 bits with a sign or of 8 bits
    without (the type of the masks): differences wrap, and quotients and
    products are floating point, taken here without rounding. *)
Definition wrap16 (q : Q) : sample :=
  Fin (inject_Z ((Qfloor q + 32768) mod 65536 - 32768)).

Definition int16 : arithmetic := mk_arithmetic wrap16 Fin Fin Fin Fin Fin.

Definition wrap8 (q : Q) : sample := Fin (inject_Z (Qfloor q mod 256)).

Definition uint8 : arithmetic := mk_arithmetic wrap8 Fin Fin Fin Fin Fin.

(** An arithmetic of fixed precision: every result is rounded down to a
    multiple of [1 / 1024]. *)
Definition round_down (q : Q) : sample :=
  Fin (inject_Z (Qfloor (q * 1024)) / 1024).

Definition fixed_point : arithmetic :=
  mk_arithmetic round_down round_down round_down round_down round_down round_down.

(** What can be asked of a rounding: that it keeps the order of the exact
    results between [lo] and [hi] (an infinity taking its place in the
    order), and that it returns the value [v] unchanged. *)
Definition monotone (r : Q -> sample) (lo hi : Q) : Prop :=
  forall x y, (lo <= x)%Q -> (x <= y)%Q -> (y <= hi)%Q -> fge (r y) (r x) = true.

Definition exact_at (r : Q -> sample) (v : Q) : Prop :=
  forall x, (x == v)%Q -> exists y, r x = Fin y /\ (y == v)%Q.

(** ** numpy arrays *)

Record ndarray (A : Type) : Type := mk_ndarray {
  shape : nat * nat;          (* (rows, columns) *)
  flat : list A               (* row-major buffer *)
}.
Arguments mk_ndarray {A} _ _.
Arguments shape {A} _.
Arguments flat {A} _.

(** [arr[i, j]] *)
Definition getitem {A} (arr : ndarray A) (i j : nat) : option A :=
  if decide (i < fst (shape arr) ∧ j < snd (shape arr))%nat
  then flat arr !! (i * snd (shape arr) + j)%nat
  else None.

(** Elementwise operation, [np.zeros_like], [np.ones_like]. *)
Definition amap {A B} (f : A -> B) (arr : ndarray A) : ndarray B :=
  mk_ndarray (shape arr) (map f (flat arr)).

Definition full_like {A B} (arr : ndarray A) (v : B) : ndarray B :=
  amap (fun _ => v) arr.

(** [arr[mask]]: the selected elements, in row-major order, as a 1-D array. *)
Fixpoint select {A} (mask : list bool) (l : list A) : list A :=
  match mask, l with
  | b :: mask', x :: l' => if b then x :: select mask' l' else select mask' l'
  | _, _ => []
  end.

Definition boolean_index {A} (arr : ndarray A) (mask : ndarray bool) : list A :=
  select (flat mask) (flat arr).

(** [target[mask] = v] *)
Fixpoint assign {A} (mask : list bool) (v : A) (l : list A) : list A :=
  match mask, l with
  | b :: mask', x :: l' => (if b then v else x) :: assign mask' v l'
  | _, _ => l
  end.

Definition boolean_assign {A} (target : ndarray A) (mask : ndarray bool) (v : A)
  : ndarray A :=
  mk_ndarray (shape target) (assign (flat mask) v (flat target)).

(** [a.min()] and [a.max()] of a 1-D array: a NaN propagates, and both raise
    on an empty array. *)
Definition fmin (a b : sample) : sample :=
  match a, b with
  | NaN, _ => NaN
  | _, NaN => NaN
  | Inf true, _ => Inf true
  | _, Inf true => Inf true
  | Inf false, y => y
  | x, Inf false => x
  | Fin x, Fin y => Fin (Qmin x y)
  end.

Definition fmax (a b : sample) : sample :=
  match a, b with
  | NaN, _ => NaN
  | _, NaN => NaN
  | Inf false, _ => Inf false
  | _, Inf false => Inf false
  | Inf true, y => y
  | x, Inf true => x
  | Fin x, Fin y => Fin (Qmax x y)
  end.

Definition np_min (a : list sample) : Exc sample :=
  match a with
  | [] => inl ValueError
  | x :: t => inr (fold_left fmin t x)
  end.

Definition np_max (a : list sample) : Exc sample :=
  match a with
  | [] => inl ValueError
  | x :: t => inr (fold_left fmax t x)
  end.

(** Truncation toward zero, the float-to-integer conversion of [astype]. *)
Definition Qtrunc (q : Q) : Z := Z.quot (Qnum q) (Zpos (Qden q)).

(** ** methodOtsu.py *)

Module OtsuWaterMask.

(** A GDAL band is typed: the index rasters the algorithm reads are floating
    point, the mask it writes is [GDT_Byte]; a band of another integer type
    holds integers too, and differs by its arithmetic. *)
Inductive band : Type :=
| FloatBand (a : ndarray sample)
| ByteBand (a : ndarray Z)
| IntBand (a : ndarray Z).

Record dataset : Type := mk_dataset {
  ds_band : band;
  ds_nodata : option sample;        (* [GetNoDataValue()], [None] when unset *)
  ds_geotransform : list Q;         (* [GetGeoTransform()] *)
  ds_projection : string            (* [GetProjection()] *)
}.

(** What an invocation can change: the raster files, by path, and the
    messages pushed to the feedback object. The threshold message is kept as
    its text and the value formatted into it. *)
Record world : Type := mk_world {
  files : gmap string dataset;
  pushed : list (string * sample)
}.

Record parameters : Type := mk_parameters {
  INPUT : string;                   (* source of the input raster layer *)
  OUTPUT : string                   (* path of the output layer *)
}.

(** [gdal.Open(path)] returns [None] when the file cannot be opened; the
    next attribute access then raises. *)
Definition gdal_Open (path : string) : M world dataset :=
  w ← get;
  match files w !! path with
  | Some ds => mret ds
  | None => mthrow AttributeError
  end.

(** [band.ReadAsArray()] *)
Definition ReadAsArray (b : band) : ndarray sample :=
  match b with
  | FloatBand a => a
  | ByteBand a => amap (fun z => Fin (inject_Z z)) a
  | IntBand a => amap (fun z => Fin (inject_Z z)) a
  end.

(** [driver.Create(path, width, height, 1, gdal.GDT_Byte)]: a zero-filled
    byte band without no-data value, geotransform or projection. *)
Definition Create (width height : nat) : dataset :=
  mk_dataset (ByteBand (mk_ndarray (height, width) (replicate (height * width) 0)))
             None [] EmptyString.

Definition SetGeoTransform (gt : list Q) (ds : dataset) : dataset :=
  mk_dataset (ds_band ds) (ds_nodata ds) gt (ds_projection ds).

Definition SetProjection (proj : string) (ds : dataset) : dataset :=
  mk_dataset (ds_band ds) (ds_nodata ds) (ds_geotransform ds) proj.

Definition WriteArray (a : ndarray Z) (ds : dataset) : dataset :=
  mk_dataset (ByteBand a) (ds_nodata ds) (ds_geotransform ds) (ds_projection ds).

Definition SetNoDataValue (v : sample) (ds : dataset) : dataset :=
  mk_dataset (ds_band ds) (Some v) (ds_geotransform ds) (ds_projection ds).

(** Closing the dataset ([out_ds = None]) leaves the file at its path. *)
Definition close (path : string) (ds : dataset) : M world unit :=
  modify (fun w => mk_world (<[path := ds]> (files w)) (pushed w)).

Definition pushInfo (text : string) (v : sample) : M world unit :=
  modify (fun w => mk_world (files w) (pushed w ++ [(text, v)])).

Section Algorithm.

(** The arithmetic numpy carries out for the type of the band read. *)
Variable np : arithmetic.

(** The threshold returned by
    [cv2.threshold(src, 0, 255, cv2.THRESH_BINARY + cv2.THRESH_OTSU)]. *)
Variable cv2_threshold_otsu : list Z -> Z.

(** What [astype(np.uint8)] makes of a NaN or of an infinity; numpy leaves
    it unspecified. *)
Variable nan_as_uint8 : sample -> Z.

(** [x.astype(np.uint8)]: the fraction is dropped, the integer wraps. *)
Definition astype_uint8 (x : sample) : Z :=
  match x with
  | Fin q => Qtrunc q mod 256
  | _ => nan_as_uint8 x
  end.

(** [(arr_valid - arr_min) / (arr_max - arr_min) * 255], and its conversion
    [.astype(np.uint8)]. *)
Definition scaled_value (arr_min arr_max v : sample) : sample :=
  fmul (r_mul np)
       (fdiv (r_div np) (fsub (r_sub np) v arr_min)
                        (fsub (r_sub np) arr_max arr_min))
       (Fin 255).

Definition scale (arr_min arr_max v : sample) : Z :=
  astype_uint8 (scaled_value arr_min arr_max v).

Definition processAlgorithm (params : parameters) : M world string :=
  let input_path := INPUT params in
  ds ← gdal_Open input_path;
  let arr := ReadAsArray (ds_band ds) in
  let nodata := ds_nodata ds in
  let gt := ds_geotransform ds in
  let proj := ds_projection ds in
  let '(height, width) := shape arr in
  let valid_mask :=
    match nodata with
    | Some nd => amap (fun c => fne c nd) arr
    | None => full_like arr true
    end in
  let arr_valid := boolean_index arr valid_mask in
  let arr_valid := List.filter (fun c => negb (isnan c)) arr_valid in
  arr_min ← lift (np_min arr_valid);
  arr_max ← lift (np_max arr_valid);
  let arr_norm := map (scale arr_min arr_max) arr_valid in
  let threshold := cv2_threshold_otsu arr_norm in
  let otsu_value :=
    fadd (r_tadd np) arr_min
         (fmul (r_tmul np)
               (fdiv (r_tdiv np) (Fin (inject_Z threshold)) (Fin 255))
               (fsub (r_sub np) arr_max arr_min)) in
  pushInfo " Порог Отсу: " otsu_value;;
  let mask := full_like arr 0 in
  let mask := boolean_assign mask (amap (fun c => fge c otsu_value) arr) 1 in
  let mask :=
    match nodata with
    | Some nd => boolean_assign mask (amap (fun c => feq c nd) arr) 0
    | None => mask
    end in
  let output_path := OUTPUT params in
  let out_ds := Create width height in
  let out_ds := SetGeoTransform gt out_ds in
  let out_ds := SetProjection proj out_ds in
  let out_ds := WriteArray mask out_ds in
  let out_ds := SetNoDataValue (Fin 0) out_ds in
  close output_path out_ds;;
  mret output_path.

(** *** Quantities the statements below speak of *)

(** A valid sample: not the no-data sentinel and not NaN. *)
Definition is_valid (nodata : option sample) (c : sample) : bool :=
  match nodata with
  | Some nd => fne c nd
  | None => true
  end && negb (isnan c).

Definition valid_samples (ds : dataset) : list sample :=
  List.filter (is_valid (ds_nodata ds)) (flat (ReadAsArray (ds_band ds))).

(** The threshold in the raster's units, from the bounds of the valid
    samples and the split point of the scaled samples. *)
Definition split_point (arr_min arr_max : sample) (vs : list sample) : Z :=
  cv2_threshold_otsu (map (scale arr_min arr_max) vs).

Definition otsu_value (arr_min arr_max : sample) (vs : list sample) : sample :=
  fadd (r_tadd np) arr_min
       (fmul (r_tmul np)
             (fdiv (r_tdiv np) (Fin (inject_Z (split_point arr_min arr_max vs)))
                   (Fin 255))
             (fsub (r_sub np) arr_max arr_min)).

(** The mask cell the contract asks for. *)
Definition mask_cell (nodata : option sample) (thr c : sample) : Z :=
  if is_valid nodata c && fge c thr then 1 else 0.

(** The last value pushed to the feedback object. *)
Definition reported (w : world) : option sample := snd <$> last (pushed w).

End Algorithm.

(** *** When the arithmetic is in order

    Line 53 between the bounds [mn] and [mx]: the range [arr_max - arr_min]
    is computed as the finite and positive [d]; the differences, between 0
    and the range, are computed in order and that of equal values is 0; so
    are the quotients, between 0 and 1, and the products, between 0 and 255,
    and these bounds are computed as themselves. *)
Definition scaling_in_order (np : arithmetic) (mn mx d : Q) : Prop :=
  r_sub np (mx - mn)%Q = Fin d /\ (0 < d)%Q /\
  monotone (r_sub np) 0 (mx - mn) /\ exact_at (r_sub np) 0 /\
  monotone (r_div np) 0 1 /\ exact_at (r_div np) 0 /\ exact_at (r_div np) 1 /\
  monotone (r_mul np) 0 255 /\ exact_at (r_mul np) 0 /\ exact_at (r_mul np) 255.

(** Line 57 from the bound [mn] and the computed range [d]: the quotients
    [threshold / 255.0], between 0 and 1, are computed in order, and so are
    the products, between 0 and [d], and the sums, between [mn] and
    [mn + d]; the bounds 0, 1, [d] and [mn] are computed as themselves and
    the largest sum as the finite [u]. *)
Definition mapping_in_order (np : arithmetic) (mn d u : Q) : Prop :=
  monotone (r_tdiv np) 0 1 /\ exact_at (r_tdiv np) 0 /\ exact_at (r_tdiv np) 1 /\
  monotone (r_tmul np) 0 d /\ exact_at (r_tmul np) 0 /\ exact_at (r_tmul np) d /\
  monotone (r_tadd np) mn (mn + d) /\ exact_at (r_tadd np) mn /\
  r_tadd np (mn + d)%Q = Fin u.

(** Line 57 on a constant field of value [v], the Otsu primitive having
    answered [t]: the range is computed as 0, [t / 255.0] is finite, its
    product with the range is 0 and the sum is [v]. *)
Definition constant_in_order (np : arithmetic) (t : Z) (v : Q) : Prop :=
  exact_at (r_sub np) 0 /\
  isfinite (r_tdiv np (inject_Z t / 255)%Q) = true /\
  exact_at (r_tmul np) 0 /\
  exact_at (r_tadd np) v.

(** The scaled value the specification describes:
    [round((value - min) / (max - min) * 255)], rounding to the nearest
    integer, halves to the even one. *)
Definition round_nearest (q : Q) : Z :=
  let f := Qfloor q in
  match ((q - inject_Z f) ?= (1 # 2))%Q with
  | Lt => f
  | Gt => f + 1
  | Eq => if Z.even f then f else f + 1
  end.

Definition spec_scaled (arr_min arr_max v : Q) : Z :=
  round_nearest ((v - arr_min) / (arr_max - arr_min) * 255)%Q.

End OtsuWaterMask.

(** ** waterClassify.py *)

Module WaterObjectClassification.

Record QgsPointXY : Type := mk_point { x : Q; y : Q }.

(** A geometry, as what the methods called on it return. The oriented
    minimum bounding box is the first component of the tuple QGIS returns,
    itself a geometry. *)
Module QgsGeometry.
#[warnings="-register-all"] Inductive t : Type := mk {
  area : Q;
  length : Q;
  isGeosValid : bool;
  asPolygon : list (list QgsPointXY);
  orientedMinimumBoundingBox : option t
}.
End QgsGeometry.

Inductive QVariant : Type :=
| VInt (z : Z)
| VDouble (q : Q)
| VString (s : string).

Inductive field_type : Type := TInt | TDouble | TString.

Record QgsField : Type := mk_field { name : string; type : field_type }.

Record QgsFeature : Type := mk_feature {
  fields : list QgsField;
  geometry : QgsGeometry.t;
  attributes : list QVariant
}.

Record QgsVectorLayer : Type := mk_layer {
  layer_fields : list QgsField;
  wkbType : Z;
  sourceCrs : string;
  features : list QgsFeature        (* in [getFeatures()] order *)
}.

Definition featureCount (layer : QgsVectorLayer) : nat :=
  List.length (features layer).

(** The vector outputs by destination, and the feedback object's record of
    the messages pushed and the progress values set by the lines of the
    algorithm itself. What the two child algorithms report to the feedback
    object they are passed (lines 79 and 94) comes before the loop and is
    not recorded. *)
Record world : Type := mk_world {
  outputs : gmap string QgsVectorLayer;
  pushed : list string;
  progress : list Z
}.

Record parameters : Type := mk_parameters {
  INPUT : OtsuWaterMask.dataset;    (* the mask raster layer *)
  OUTPUT : string                   (* path of the output layer *)
}.

Definition pushInfo (text : string) : M world unit :=
  modify (fun w => mk_world (outputs w) (pushed w ++ [text]) (progress w)).

Definition setProgress (p : Z) : M world unit :=
  modify (fun w => mk_world (outputs w) (pushed w) (progress w ++ [p])).

(** [if os.path.exists(path): os.remove(path)] *)
Definition remove_if_exists (path : string) : M world unit :=
  modify (fun w => mk_world (delete path (outputs w)) (pushed w) (progress w)).

(** [parameterAsSink]: a new, empty layer at the destination. The sink is
    taken to be created; the algorithm does not test it. *)
Definition parameterAsSink (path : string) (flds : list QgsField)
    (wkb : Z) (crs : string) : M world string :=
  modify (fun w => mk_world (<[path := mk_layer flds wkb crs []]> (outputs w))
                            (pushed w) (progress w));;
  mret path.

(** [sink.addFeature(f, QgsFeatureSink.FastInsert)] *)
Definition addFeature (dest_id : string) (f : QgsFeature) : M world unit :=
  modify (fun w =>
    mk_world (alter (fun l => mk_layer (layer_fields l) (wkbType l) (sourceCrs l)
                                       (features l ++ [f]))
                    dest_id (outputs w))
             (pushed w) (progress w)).

(** [native:extractbyattribute] with operator [=]: the features whose
    attribute in the named field equals the integer value; an unknown field
    is an error. *)
Definition field_index (flds : list QgsField) (nm : string) : option nat :=
  fst <$> list_find (fun f => name f = nm) flds.

Definition attribute_equals (v : QVariant) (value : Z) : bool :=
  match v with
  | VInt z => Z.eqb z value
  | VDouble q => Qeq_bool q (inject_Z value)
  | VString _ => false
  end.

Definition has_value (k : nat) (value : Z) (f : QgsFeature) : bool :=
  match attributes f !! k with
  | Some v => attribute_equals v value
  | None => false
  end.

Definition extractbyattribute (layer : QgsVectorLayer) (field : string)
    (value : Z) : Exc QgsVectorLayer :=
  match field_index (layer_fields layer) field with
  | None => inl QgsProcessingException
  | Some k =>
      inr (mk_layer (layer_fields layer) (wkbType layer) (sourceCrs layer)
                    (List.filter (has_value k value) (features layer)))
  end.

(** The label of a water object. *)
Definition River : string := " Река".
Definition Lake : string := " Озеро".
Definition Creek : string := " Ерик".
Definition Pond : string := " Пруд".
Definition Generic : string := " Водоём".

Definition classify (area elongation main_axis : Q) : string :=
  if Qltb 8000 main_axis && Qltb 3 elongation then " Река"
  else if Qltb 500000 area && Qltb elongation 2 then " Озеро"
  else if Qltb area 20000 && Qltb 2 elongation then " Ерик"
  else if Qltb area 10000 then " Пруд"
  else " Водоём".

Section Algorithm.

(** [gdal:polygonize] on the mask raster, with field [DN]: the layer it
    returns or the exception it raises. *)
Variable gdal_polygonize : OtsuWaterMask.dataset -> Exc QgsVectorLayer.

(** [QgsPointXY.distance] *)
Variable distance : QgsPointXY -> QgsPointXY -> Q.

(** [[rect_coords[i].distance(rect_coords[i+1]) for i in range(4)]] *)
Definition side_lengths (rect_coords : list QgsPointXY) : Exc (list Q) :=
  mapM (fun i => p ← item rect_coords i;
                 q ← item rect_coords (i + 1);
                 mret (distance p q))
       (seq 0 4).

(** Elongation and main axis of a geometry (lines 118-133). *)
Definition elongation_main_axis (geom : QgsGeometry.t) : Exc (Q * Q) :=
  let min_rect_tuple := QgsGeometry.orientedMinimumBoundingBox geom in
  match min_rect_tuple with
  | Some min_rect_geom =>
      if QgsGeometry.isGeosValid min_rect_geom then
        rect_coords ← item (QgsGeometry.asPolygon min_rect_geom) 0;
        side_lengths ← side_lengths rect_coords;
        width ← py_min side_lengths;
        height ← py_max side_lengths;
        let elongation := (if Qltb 0 width then height / width else 1)%Q in
        main_axis ← py_max side_lengths;
        mret (elongation, main_axis)
      else mret (1%Q, 0%Q)
  | None => mret (1%Q, 0%Q)
  end.

(** The feature built and added for one input feature (lines 114-150). *)
Definition classified (flds : list QgsField) (f : QgsFeature) : Exc QgsFeature :=
  let geom := geometry f in
  let area := QgsGeometry.area geom in
  let perim := QgsGeometry.length geom in
  '(elongation, main_axis) ← elongation_main_axis geom;
  let cls := classify area elongation main_axis in
  let attrs := attributes f ++ [VDouble area; VDouble perim; VDouble elongation;
                                VDouble main_axis; VString cls] in
  mret (mk_feature flds geom attrs).

(** [int(100 * i / total)] *)
Definition percent (i total : nat) : Exc Z :=
  if decide (total = 0%nat) then inl ZeroDivisionError
  else inr (Z.quot (100 * Z.of_nat i) (Z.of_nat total)).

(** The loop over [enumerate(only_water.getFeatures())], from index [i].
    [isCanceled k] is the answer of the feedback object when it is asked at
    the start of iteration [k]. *)
Fixpoint loop (isCanceled : nat -> bool) (flds : list QgsField)
    (dest_id : string) (total : nat) (i : nat) (fs : list QgsFeature)
  : M world unit :=
  match fs with
  | [] => mret tt
  | f :: rest =>
      if isCanceled i then mret tt
      else
        new_f ← lift (classified flds f);
        addFeature dest_id new_f;;
        p ← lift (percent i total);
        setProgress p;;
        loop isCanceled flds dest_id total (S i) rest
  end.

Definition processAlgorithm (isCanceled : nat -> bool) (params : parameters)
  : M world string :=
  let mask_layer := INPUT params in
  let output_path := OUTPUT params in
  remove_if_exists output_path;;
  pushInfo "Векторизация маски...";;
  vectorized ← lift (gdal_polygonize mask_layer);
  pushInfo " Фильтрация водных объектов...";;
  only_water ← lift (extractbyattribute vectorized "DN" 1);
  pushInfo " Расчёт геометрических характеристик и классификация...";;
  let flds := layer_fields only_water ++
    [mk_field "area_m2" TDouble; mk_field "perimeter_m" TDouble;
     mk_field "elongation" TDouble; mk_field "main_axis" TDouble;
     mk_field "class" TString] in
  dest_id ← parameterAsSink output_path flds (wkbType only_water)
                            (sourceCrs only_water);
  let total := featureCount only_water in
  loop isCanceled flds dest_id total 0 (features only_water);;
  pushInfo " Готово! Классификация завершена.";;
  mret dest_id.

End Algorithm.

(** *** Quantities the statements below speak of *)

(** The number of iterations the loop completes over [n] features from
    index [i]: it stops at the first index at which the feedback object
    answers that the run is cancelled. *)
Fixpoint iterations (isCanceled : nat -> bool) (i n : nat) : nat :=
  match n with
  | O => O
  | S n' => if isCanceled i then O else S (iterations isCanceled (S i) n')
  end.

(** The fields of the output layer: those of the filtered layer and the
    five derived ones (lines 99-104). *)
Definition output_fields (only_water : QgsVectorLayer) : list QgsField :=
  layer_fields only_water ++
    [mk_field "area_m2" TDouble; mk_field "perimeter_m" TDouble;
     mk_field "elongation" TDouble; mk_field "main_axis" TDouble;
     mk_field "class" TString].

(** A layer with features appended. *)
Definition with_features (l : QgsVectorLayer) (gs : list QgsFeature)
  : QgsVectorLayer :=
  mk_layer (layer_fields l) (wkbType l) (sourceCrs l) (features l ++ gs).

(** The five attributes the classifier appends to a feature. *)
Definition derived_attributes (g : QgsFeature) : list QVariant :=
  drop (List.length (attributes g) - 5) (attributes g).

(** The features of a layer that carry a given label. *)
Definition has_label (cls : string) (g : QgsFeature) : bool :=
  match last (attributes g) with
  | Some (VString s) => bool_decide (s = cls)
  | _ => false
  end.

Definition count_label (cls : string) (gs : list QgsFeature) : nat :=
  List.length (List.filter (has_label cls) gs).

End WaterObjectClassification.

(** ** An instance of the Otsu primitive

    OpenCV's scan over the 256 bins of the histogram
    ([getThreshVal_Otsu_8u]), in exact arithmetic. The algorithms above take
    the primitive as a parameter; this instance runs them on concrete
    rasters. *)

Module cv2.

Definition FLT_EPSILON : Q := 1 # 8388608.

Definition hist (src : list Z) (i : Z) : Z :=
  Z.of_nat (List.length (List.filter (Z.eqb i) src)).

Record scan : Type := mk_scan {
  mu1 : Q;
  q1 : Q;
  max_sigma : Q;
  max_val : Z
}.

Definition step (src : list Z) (scale mu : Q) (st : scan) (i : Z) : scan :=
  let p_i := Qred (inject_Z (hist src i) * scale) in
  let mu1' := Qred (mu1 st * q1 st) in
  let q1' := Qred (q1 st + p_i) in
  let q2 := Qred (1 - q1') in
  if Qltb (Qmin q1' q2) FLT_EPSILON || Qltb (1 - FLT_EPSILON) (Qmax q1' q2)
  then mk_scan mu1' q1' (max_sigma st) (max_val st)
  else
    let mu1'' := Qred ((mu1' + inject_Z i * p_i) / q1') in
    let mu2 := Qred ((mu - q1' * mu1'') / q2) in
    let sigma := Qred (q1' * q2 * (mu1'' - mu2) * (mu1'' - mu2)) in
    if Qltb (max_sigma st) sigma
    then mk_scan mu1'' q1' sigma i
    else mk_scan mu1'' q1' (max_sigma st) (max_val st).

Definition bins : list Z := map Z.of_nat (seq 0 256).

Definition threshold_otsu (src : list Z) : Z :=
  let scale := Qred (1 / inject_Z (Z.of_nat (List.length src))) in
  let mu := Qred (fold_left (fun (acc : Q) i => (acc + inject_Z i * inject_Z (hist src i))%Q)
                            bins 0%Q * scale) in
  max_val (fold_left (step src scale mu) bins (mk_scan 0%Q 0%Q 0%Q 0)).

End cv2.

(** ** Sample inputs *)

Module Samples.
Import OtsuWaterMask.

Definition gt30 : list Q := [500000; 30; 0; 6000000; 0; -30]%Q.

(** A 2 x 3 index raster with a no-data cell and a NaN cell. *)
Definition index_raster : dataset :=
  mk_dataset
    (FloatBand (mk_ndarray (2, 3)%nat
       [Fin (-9999); Fin 0; Fin 1; NaN; Fin 300; Fin 150]))
    (Some (Fin (-9999))) gt30 "EPSG:32637".

(** A raster whose valid samples are all 5. *)
Definition constant_raster : dataset :=
  mk_dataset
    (FloatBand (mk_ndarray (2, 2)%nat [Fin 5; Fin 5; Fin (-9999); Fin 5]))
    (Some (Fin (-9999))) gt30 "EPSG:32637".


(** A raster whose valid samples are all the same infinity. *)
Definition infinite_raster : dataset :=
  mk_dataset
    (FloatBand (mk_ndarray (1, 3)%nat [Inf false; Fin (-9999); Inf false]))
    (Some (Fin (-9999))) gt30 "EPSG:32637".

(** A 16-bit integer raster, whose range exceeds the type. *)
Definition int16_raster : dataset :=
  mk_dataset
    (IntBand (mk_ndarray (2, 2)%nat [-20000; 10000; 15000; 20000]))
    None gt30 "EPSG:32637".

(** A raster without a valid sample. *)
Definition void_raster : dataset :=
  mk_dataset
    (FloatBand (mk_ndarray (1, 3)%nat [Fin (-9999); NaN; Fin (-9999)]))
    (Some (Fin (-9999))) gt30 "EPSG:32637".

Definition disk (ds : dataset) : world :=
  mk_world {[ "in.tif" := ds ]} [].

Definition in_out : parameters := mk_parameters "in.tif" "out.tif".

End Samples.

Module WaterSamples.
Import WaterObjectClassification.

(** The distance between two points on a horizontal or a vertical line,
    which the sides of the sample rectangles are. *)
Definition axis_distance (p q : QgsPointXY) : Q :=
  Qabs (x p - x q) + Qabs (y p - y q).

(** The rectangle with a corner at the origin, as a geometry. *)
Definition rectangle (width height : Q) : QgsGeometry.t :=
  QgsGeometry.mk (width * height) (2 * (width + height)) true
    [[mk_point 0 0; mk_point width 0; mk_point width height;
      mk_point 0 height; mk_point 0 0]]
    None.

(** A rectangular polygon, its bounding rectangle being itself. *)
Definition rectangular (width height : Q) : QgsGeometry.t :=
  QgsGeometry.mk (width * height) (2 * (width + height)) true
    [[mk_point 0 0; mk_point width 0; mk_point width height;
      mk_point 0 height; mk_point 0 0]]
    (Some (rectangle width height)).

(** A polygon for which no bounding rectangle is returned. *)
Definition unbounded (area perimeter : Q) : QgsGeometry.t :=
  QgsGeometry.mk area perimeter true [] None.

Definition DN : list QgsField := [mk_field "DN" TInt].

Definition polygon (dn : Z) (geom : QgsGeometry.t) : QgsFeature :=
  mk_feature DN geom [VInt dn].

(** A polygonized mask: a pond, the background, a river, a lake and a
    polygon without bounding rectangle. *)
Definition polygons : QgsVectorLayer :=
  mk_layer DN 3 "EPSG:32637"
    [polygon 1 (rectangular 50 50);
     polygon 0 (rectangular 20000 20000);
     polygon 1 (rectangular 10000 100);
     polygon 1 (rectangular 1000 1000);
     polygon 1 (unbounded 30000 900)].

Definition polygonize (mask : OtsuWaterMask.dataset) : Exc QgsVectorLayer :=
  inr polygons.

Definition mask_raster : OtsuWaterMask.dataset :=
  OtsuWaterMask.mk_dataset
    (OtsuWaterMask.ByteBand (mk_ndarray (1, 2)%nat [1; 0]))
    (Some (Fin 0)) Samples.gt30 "EPSG:32637".

Definition mask_to_layer : parameters := mk_parameters mask_raster "water.gpkg".

Definition start : world := mk_world ∅ [] [].

Definition never : nat -> bool := fun _ => false.

(** Cancelled when the third iteration starts. *)
Definition at_third : nat -> bool := fun i => (2 <=? i)%nat.

Definition full_run : Exc string * world :=
  processAlgorithm polygonize axis_distance never mask_to_layer start.

Definition output_of (run : Exc string * world) : QgsVectorLayer :=
  default (mk_layer [] 0 EmptyString []) (outputs (snd run) !! "water.gpkg").

End WaterSamples.

Module CoverageSamples.
Import WaterObjectClassification WaterSamples.

(** A polygonization that raises. *)
Definition failing_polygonize (mask : OtsuWaterMask.dataset)
  : Exc QgsVectorLayer :=
  inl QgsProcessingException.

(** A polygonized mask without water: the background alone. *)
Definition background : QgsVectorLayer :=
  mk_layer DN 3 "EPSG:32637" [polygon 0 (rectangular 20000 20000)].

Definition polygonize_background (mask : OtsuWaterMask.dataset)
  : Exc QgsVectorLayer :=
  inr background.

(** A water polygon whose bounding rectangle is valid but has a ring of
    three points only. *)
Definition short_ring : QgsGeometry.t :=
  QgsGeometry.mk 100 40 true []
    (Some (QgsGeometry.mk 100 40 true
             [[mk_point 0 0; mk_point 10 0; mk_point 0 0]] None)).

Definition with_short_ring : QgsVectorLayer :=
  mk_layer DN 3 "EPSG:32637"
    [polygon 1 (rectangular 50 50); polygon 1 short_ring].

Definition polygonize_short_ring (mask : OtsuWaterMask.dataset)
  : Exc QgsVectorLayer :=
  inr with_short_ring.

(** A state with layers already at the output path and at another one. *)
Definition earlier : world :=
  mk_world {[ "water.gpkg" := background; "other.gpkg" := polygons ]} [] [].

End CoverageSamples.

(** * Properties *)

(** ** Arrays *)

Lemma select_map {A} (f : A -> bool) (l : list A) :
  select (map f l) l = List.filter f l.
Proof.
  induction l as [|a l IH]; simpl; [reflexivity|].
  destruct (f a); rewrite IH; reflexivity.
Qed.

Lemma select_const_true {A} (l : list A) :
  select (map (fun _ => true) l) l = l.
Proof. induction l as [|a l IH]; simpl; congruence. Qed.

Lemma assign_map {A B} (f : A -> bool) (g : A -> B) (v : B) (l : list A) :
  assign (map f l) v (map g l) = map (fun c => if f c then v else g c) l.
Proof. induction l as [|a l IH]; simpl; congruence. Qed.

Lemma filter_filter {A} (f g : A -> bool) (l : list A) :
  List.filter g (List.filter f l) = List.filter (fun c => f c && g c) l.
Proof.
  induction l as [|a l IH]; simpl; [reflexivity|].
  destruct (f a); simpl; [destruct (g a)|]; rewrite IH; reflexivity.
Qed.

Lemma getitem_amap {A B} (f : A -> B) (arr : ndarray A) (i j : nat) :
  getitem (amap f arr) i j = f <$> getitem arr i j.
Proof.
  unfold getitem, amap; simpl.
  destruct (decide _); [|reflexivity].
  apply list_lookup_fmap.
Qed.

(** ** Order and rounding of samples *)

Lemma isfinite_Fin (c : sample) : isfinite c = true -> exists q, c = Fin q.
Proof. destruct c as [| |q]; try discriminate. intros _. exists q. reflexivity. Qed.

Lemma fge_between (a : sample) (x y : Q) :
  fge a (Fin x) = true -> fge (Fin y) a = true ->
  exists q, a = Fin q /\ (x <= q)%Q /\ (q <= y)%Q.
Proof.
  destruct a as [|[]|q]; simpl; try discriminate.
  intros H1 H2. apply Qle_bool_iff in H1, H2.
  exists q. repeat split; assumption.
Qed.

(** A value rounded in order between a bound returned unchanged and a bound
    rounded to a finite value is finite, and between the two. *)
Lemma rounded_between (r : Q -> sample) (lo hi x b : Q) :
  monotone r lo hi -> exact_at r lo -> r hi = Fin b ->
  (lo <= x)%Q -> (x <= hi)%Q ->
  exists y, r x = Fin y /\ (lo <= y)%Q /\ (y <= b)%Q.
Proof.
  intros Hm Hlo Hhi H1 H2.
  destruct (Hlo lo (Qeq_refl lo)) as (a & Ha & Ea).
  assert (G1 : fge (r x) (Fin a) = true).
  { rewrite <- Ha. apply Hm; lra. }
  assert (G2 : fge (Fin b) (r x) = true).
  { rewrite <- Hhi. apply Hm; lra. }
  destruct (fge_between _ _ _ G1 G2) as (y & Ey & L1 & L2).
  exists y. repeat split; [exact Ey | lra | exact L2].
Qed.

Lemma rounded_order (r : Q -> sample) (lo hi x y a b : Q) :
  monotone r lo hi -> (lo <= x)%Q -> (x <= y)%Q -> (y <= hi)%Q ->
  r x = Fin a -> r y = Fin b -> (a <= b)%Q.
Proof.
  intros Hm H1 H2 H3 Ha Hb.
  pose proof (Hm x y H1 H2 H3) as G. rewrite Ha, Hb in G.
  apply Qle_bool_iff in G. exact G.
Qed.

(** The arithmetic without rounding is in order everywhere. *)
Lemma exact_monotone (lo hi : Q) : monotone Fin lo hi.
Proof. intros x y _ H _. simpl. apply Qle_bool_iff. exact H. Qed.

Lemma exact_exact_at (v : Q) : exact_at Fin v.
Proof. intros x Hx. exists x. split; [reflexivity | exact Hx]. Qed.

(** Rounding down to a fixed precision is in order everywhere, and returns
    the integers unchanged. *)
Lemma round_down_monotone (lo hi : Q) : monotone round_down lo hi.
Proof.
  intros x y _ H _. unfold round_down, fge. apply Qle_bool_iff.
  assert (Hf : Qfloor (x * 1024) <= Qfloor (y * 1024)).
  { apply Qfloor_resp_le. lra. }
  rewrite Zle_Qle in Hf.
  unfold Qdiv. apply Qmult_le_compat_r; [exact Hf | discriminate].
Qed.

Lemma round_down_exact_at (n : Z) : exact_at round_down (inject_Z n).
Proof.
  intros x Hx. eexists. split; [reflexivity|].
  assert (E : (x * 1024 == inject_Z (n * 1024))%Q).
  { rewrite Hx, inject_Z_mult. reflexivity. }
  rewrite E, Qfloor_Z, inject_Z_mult. field.
Qed.

(** ** Minimum and maximum of finite samples *)

Lemma fold_fmin_spec (l : list sample) (a : Q) :
  Forall (fun c => isfinite c = true) l ->
  exists m, fold_left fmin l (Fin a) = Fin m /\
            (Fin m = Fin a \/ In (Fin m) l) /\
            (m <= a)%Q /\
            (forall q, In (Fin q) l -> (m <= q)%Q).
Proof.
  revert a; induction l as [|c l IH]; intros a Hl.
  - exists a; simpl; repeat split; [now left | lra | tauto].
  - inversion Hl as [|? ? Hc Hl']; subst.
    destruct c as [| |q]; [discriminate Hc | discriminate Hc |]. simpl.
    destruct (IH (Qmin a q) Hl') as (m & Hm & Hin & Hle & Hall).
    exists m; repeat split; [exact Hm | | | ].
    + destruct Hin as [Heq|Hin]; [|now right; right].
      rewrite Heq. unfold Qmin, GenericMinMax.gmin.
      destruct (a ?= q)%Q; [left|left|right; left]; reflexivity.
    + pose proof (Q.le_min_l a q); lra.
    + intros q' [E|Hq]; [|now apply Hall].
      injection E as <-. pose proof (Q.le_min_r a q); lra.
Qed.

Lemma fold_fmax_spec (l : list sample) (a : Q) :
  Forall (fun c => isfinite c = true) l ->
  exists m, fold_left fmax l (Fin a) = Fin m /\
            (Fin m = Fin a \/ In (Fin m) l) /\
            (a <= m)%Q /\
            (forall q, In (Fin q) l -> (q <= m)%Q).
Proof.
  revert a; induction l as [|c l IH]; intros a Hl.
  - exists a; simpl; repeat split; [now left | lra | tauto].
  - inversion Hl as [|? ? Hc Hl']; subst.
    destruct c as [| |q]; [discriminate Hc | discriminate Hc |]. simpl.
    destruct (IH (Qmax a q) Hl') as (m & Hm & Hin & Hle & Hall).
    exists m; repeat split; [exact Hm | | | ].
    + destruct Hin as [Heq|Hin]; [|now right; right].
      rewrite Heq. unfold Qmax, GenericMinMax.gmax.
      destruct (a ?= q)%Q; [left|right; left|left]; reflexivity.
    + pose proof (Q.le_max_l a q); lra.
    + intros q' [E|Hq]; [|now apply Hall].
      injection E as <-. pose proof (Q.le_max_r a q); lra.
Qed.

Lemma np_min_spec (vs : list sample) :
  Forall (fun c => isfinite c = true) vs -> vs <> [] ->
  exists m, np_min vs = inr (Fin m) /\ In (Fin m) vs /\
            (forall q, In (Fin q) vs -> (m <= q)%Q).
Proof.
  intros Hfin Hne. destruct vs as [|c vs]; [congruence|].
  inversion Hfin as [|? ? Hc Hvs]; subst.
  destruct c as [| |a]; [discriminate Hc | discriminate Hc |].
  destruct (fold_fmin_spec vs a Hvs) as (m & Hm & Hin & Hle & Hall).
  exists m; simpl; repeat split.
  - now rewrite Hm.
  - destruct Hin as [E|Hin]; [left; congruence | now right].
  - intros q [E|Hq]; [injection E as <-; exact Hle | now apply Hall].
Qed.

Lemma np_max_spec (vs : list sample) :
  Forall (fun c => isfinite c = true) vs -> vs <> [] ->
  exists m, np_max vs = inr (Fin m) /\ In (Fin m) vs /\
            (forall q, In (Fin q) vs -> (q <= m)%Q).
Proof.
  intros Hfin Hne. destruct vs as [|c vs]; [congruence|].
  inversion Hfin as [|? ? Hc Hvs]; subst.
  destruct c as [| |a]; [discriminate Hc | discriminate Hc |].
  destruct (fold_fmax_spec vs a Hvs) as (m & Hm & Hin & Hle & Hall).
  exists m; simpl; repeat split.
  - now rewrite Hm.
  - destruct Hin as [E|Hin]; [left; congruence | now right].
  - intros q [E|Hq]; [injection E as <-; exact Hle | now apply Hall].
Qed.

(** Both are returned for an array that is not empty. *)
Lemma np_min_inr (vs : list sample) :
  vs <> [] -> exists m, np_min vs = inr m.
Proof. destruct vs as [|c vs]; [congruence|]. intros _. eexists. reflexivity. Qed.

Lemma np_max_inr (vs : list sample) :
  vs <> [] -> exists m, np_max vs = inr m.
Proof. destruct vs as [|c vs]; [congruence|]. intros _. eexists. reflexivity. Qed.

(** Finite samples lie between the minimum and the maximum returned. *)
Lemma finite_samples_bounds (vs : list sample) (mn mx : Q) :
  Forall (fun c => isfinite c = true) vs ->
  np_min vs = inr (Fin mn) -> np_max vs = inr (Fin mx) ->
  In (Fin mn) vs /\ In (Fin mx) vs /\
  forall c, In c vs -> exists v, c = Fin v /\ (mn <= v)%Q /\ (v <= mx)%Q.
Proof.
  intros Hfin Hmin Hmax.
  assert (Hne : vs <> []) by (intros E; rewrite E in Hmin; discriminate Hmin).
  destruct (np_min_spec vs Hfin Hne) as (mn' & Hmin' & Hmn & Hlo).
  destruct (np_max_spec vs Hfin Hne) as (mx' & Hmax' & Hmx & Hhi).
  assert (mn' = mn) as -> by congruence.
  assert (mx' = mx) as -> by congruence.
  split; [exact Hmn|]. split; [exact Hmx|].
  intros c Hc. rewrite List.Forall_forall in Hfin.
  destruct (isfinite_Fin c (Hfin c Hc)) as (v & ->).
  exists v. split; [reflexivity|]. split; [apply Hlo | apply Hhi]; exact Hc.
Qed.

(** ** The threshold segmenter *)

Section OtsuWaterMaskProperties.
Import OtsuWaterMask.

Variable np : arithmetic.
Variable otsu : list Z -> Z.
Variable nan8 : sample -> Z.

Lemma is_valid_not_nan nodata c : is_valid nodata c = true -> isnan c = false.
Proof.
  unfold is_valid. intros H. apply andb_prop in H as [_ H].
  now destruct (isnan c).
Qed.

(** The cell the three array assignments of lines 61-64 leave. *)
Lemma mask_cell_assignments nodata thr c :
  (match nodata with
   | Some nd => if feq c nd then 0 else if fge c thr then 1 else 0
   | None => if fge c thr then 1 else 0
   end) = mask_cell nodata thr c.
Proof.
  unfold mask_cell, is_valid, fne.
  destruct nodata as [nd|]; simpl.
  - destruct (feq c nd); simpl; [reflexivity|].
    destruct c as [|[]|q]; simpl; reflexivity.
  - destruct c as [|[]|q]; simpl; reflexivity.
Qed.

(** The three array assignments of lines 61-64, cell by cell. *)
Lemma mask_assignments (arr : ndarray sample) nodata thr :
  match nodata with
  | Some nd =>
      boolean_assign
        (boolean_assign (full_like arr 0) (amap (fun c => fge c thr) arr) 1)
        (amap (fun c => feq c nd) arr) 0
  | None => boolean_assign (full_like arr 0) (amap (fun c => fge c thr) arr) 1
  end = amap (mask_cell nodata thr) arr.
Proof.
  unfold boolean_assign, full_like, amap; simpl.
  destruct nodata as [nd|]; f_equal.
  - rewrite assign_map, assign_map. apply map_ext. intros c.
    apply (mask_cell_assignments (Some nd)).
  - rewrite assign_map. apply map_ext. intros c.
    apply (mask_cell_assignments None).
Qed.

(** The run of the algorithm on an input that opens: it raises on an empty
    set of valid samples before anything is written, and otherwise reports
    the threshold and writes the mask. *)
Lemma processAlgorithm_run params w ds :
  files w !! INPUT params = Some ds ->
  processAlgorithm np otsu nan8 params w =
    match np_min (valid_samples ds), np_max (valid_samples ds) with
    | inr arr_min, inr arr_max =>
        let thr := otsu_value np otsu nan8 arr_min arr_max (valid_samples ds) in
        (inr (OUTPUT params),
         mk_world
           (<[OUTPUT params :=
                mk_dataset
                  (ByteBand (amap (mask_cell (ds_nodata ds) thr)
                                  (ReadAsArray (ds_band ds))))
                  (Some (Fin 0)) (ds_geotransform ds) (ds_projection ds)]>
              (files w))
           (pushed w ++ [(" Порог Отсу: ", thr)]))
    | _, _ => (inl ValueError, w)
    end.
Proof.
  intros Hopen.
  assert (Hvs : List.filter (fun c => negb (isnan c))
                  (boolean_index (ReadAsArray (ds_band ds))
                     match ds_nodata ds with
                     | Some nd => amap (fun c => fne c nd) (ReadAsArray (ds_band ds))
                     | None => full_like (ReadAsArray (ds_band ds)) true
                     end) = valid_samples ds).
  { unfold valid_samples, boolean_index, is_valid.
    destruct (ds_nodata ds) as [nd|]; simpl.
    - rewrite select_map, filter_filter. reflexivity.
    - rewrite select_const_true. reflexivity. }
  unfold processAlgorithm, gdal_Open.
  unfold mbind, M_bind, get at 1. rewrite Hopen.
  unfold mret, M_ret.
  destruct (shape (ReadAsArray (ds_band ds))) as [height width] eqn:Hshape.
  rewrite Hvs. unfold lift.
  destruct (np_min (valid_samples ds)) as [e|arr_min] eqn:Hmin.
  { destruct (valid_samples ds); [|discriminate Hmin].
    injection Hmin as <-. reflexivity. }
  destruct (np_max (valid_samples ds)) as [e|arr_max] eqn:Hmax.
  { destruct (valid_samples ds); [discriminate Hmin|discriminate Hmax]. }
  rewrite <- mask_assignments.
  destruct (ds_nodata ds); reflexivity.
Qed.


(** C4. On a raster without a valid sample (every cell is the no-data
    sentinel or NaN) the segmenter raises: numpy's [ValueError] for the
    minimum of an empty array. Nothing is written and nothing reported. *)
Theorem no_valid_sample_fails params w ds :
  files w !! INPUT params = Some ds ->
  (forall c, In c (flat (ReadAsArray (ds_band ds))) ->
     is_valid (ds_nodata ds) c = false) ->
  processAlgorithm np otsu nan8 params w = (inl ValueError, w).
Proof.
  intros Hopen Hnone.
  rewrite (processAlgorithm_run params w ds Hopen).
  assert (Hvs : valid_samples ds = []).
  { unfold valid_samples.
    destruct (List.filter _ _) as [|c l] eqn:E; [reflexivity|].
    assert (Hc : In c (c :: l)) by now left.
    rewrite <- E in Hc. apply List.filter_In in Hc as [Hin Hv].
    rewrite (Hnone c Hin) in Hv. discriminate Hv. }
  rewrite Hvs. reflexivity.
Qed.

(** The conversion to [uint8] of a value in [0, 255] is its floor. *)
Lemma astype_uint8_in_range (q : Q) :
  (0 <= q)%Q -> (q <= 255)%Q ->
  astype_uint8 nan8 (Fin q) = Qfloor q /\ 0 <= Qfloor q <= 255.
Proof.
  intros H0 H255.
  assert (Hlo : 0 <= Qfloor q).
  { change 0 with (Qfloor 0). now apply Qfloor_resp_le. }
  assert (Hhi : Qfloor q <= 255).
  { change 255 with (Qfloor 255). now apply Qfloor_resp_le. }
  split; [|lia].
  unfold astype_uint8, Qtrunc.
  assert (Hq : Qnum q ÷ Z.pos (Qden q) = Qfloor q).
  { destruct q as [n d]; simpl.
    apply Z.quot_div_nonneg; [|lia].
    unfold Qle in H0; simpl in H0. lia. }
  rewrite Hq. apply Z.mod_small. lia.
Qed.

(** The three operations of line 53 on a sample between the bounds, when the
    arithmetic is in order: each result is finite and within its range. *)
Lemma scaled_value_in_order (mn mx d v : Q) :
  scaling_in_order np mn mx d -> (mn <= v)%Q -> (v <= mx)%Q ->
  exists a b x,
    r_sub np (v - mn)%Q = Fin a /\ (0 <= a)%Q /\ (a <= d)%Q /\
    r_div np (a / d)%Q = Fin b /\ (0 <= b)%Q /\ (b <= 1)%Q /\
    r_mul np (b * 255)%Q = Fin x /\ (0 <= x)%Q /\ (x <= 255)%Q /\
    scaled_value np (Fin mn) (Fin mx) (Fin v) = Fin x.
Proof.
  intros (Hd & Hpos & Ms & Es & Md & Ed0 & Ed1 & Mm & Em0 & Em255) Hlo Hhi.
  destruct (rounded_between _ 0 (mx - mn) (v - mn) d Ms Es Hd)
    as (a & Ha & A0 & A1); [lra | lra |].
  destruct (Ed1 1%Q (Qeq_refl 1)) as (b1 & Hb1 & Eb1).
  assert (Q0 : (0 <= a / d)%Q) by (apply Qle_shift_div_l; lra).
  assert (Q1 : (a / d <= 1)%Q) by (apply Qle_shift_div_r; lra).
  destruct (rounded_between _ 0 1 (a / d) b1 Md Ed0 Hb1 Q0 Q1)
    as (b & Hb & B0 & B1).
  destruct (Em255 255%Q (Qeq_refl 255)) as (x1 & Hx1 & Ex1).
  destruct (rounded_between _ 0 255 (b * 255) x1 Mm Em0 Hx1)
    as (x & Hx & X0 & X1); [lra | lra |].
  exists a, b, x.
  repeat split; try assumption; try lra.
  unfold scaled_value. simpl. rewrite Ha, Hd. simpl.
  assert (Hne : Qeq_bool d 0 = false).
  { apply not_true_is_false. intros E. apply Qeq_bool_eq in E. lra. }
  rewrite Hne, Hb. simpl. exact Hx.
Qed.

(** The computed value follows the order of the samples. *)
Lemma scaled_value_monotone (mn mx d v1 v2 x1 x2 : Q) :
  scaling_in_order np mn mx d ->
  (mn <= v1)%Q -> (v1 <= v2)%Q -> (v2 <= mx)%Q ->
  scaled_value np (Fin mn) (Fin mx) (Fin v1) = Fin x1 ->
  scaled_value np (Fin mn) (Fin mx) (Fin v2) = Fin x2 ->
  (x1 <= x2)%Q.
Proof.
  intros Hord H1 H12 H2 E1 E2.
  destruct (scaled_value_in_order mn mx d v1 Hord)
    as (a1 & b1 & y1 & Ha1 & A10 & A11 & Hb1 & B10 & B11 & Hy1 & _ & _ & S1);
    [lra | lra |].
  destruct (scaled_value_in_order mn mx d v2 Hord)
    as (a2 & b2 & y2 & Ha2 & A20 & A21 & Hb2 & B20 & B21 & Hy2 & _ & _ & S2);
    [lra | lra |].
  rewrite E1 in S1. injection S1 as <-.
  rewrite E2 in S2. injection S2 as <-.
  destruct Hord as (Hd & Hpos & Ms & Es & Md & Ed0 & Ed1 & Mm & Em0 & Em255).
  assert (La : (a1 <= a2)%Q).
  { apply (rounded_order _ 0 (mx - mn) (v1 - mn) (v2 - mn) a1 a2 Ms);
      [lra | lra | lra | exact Ha1 | exact Ha2]. }
  assert (Lq : (a1 / d <= a2 / d)%Q).
  { unfold Qdiv. apply Qmult_le_compat_r; [exact La|].
    apply Qlt_le_weak, Qinv_lt_0_compat. exact Hpos. }
  assert (Lb : (b1 <= b2)%Q).
  { apply (rounded_order _ 0 1 (a1 / d) (a2 / d) b1 b2 Md);
      [apply Qle_shift_div_l; lra | exact Lq | apply Qle_shift_div_r; lra
       | exact Hb1 | exact Hb2]. }
  apply (rounded_order _ 0 255 (b1 * 255) (b2 * 255) x1 x2 Mm);
    [lra | lra | lra | exact Hy1 | exact Hy2].
Qed.

(** The computed values of the bounds are 0 and 255. *)
Lemma scaled_value_ends (mn mx d : Q) :
  scaling_in_order np mn mx d ->
  (exists x, scaled_value np (Fin mn) (Fin mx) (Fin mn) = Fin x /\ (x == 0)%Q) /\
  (exists x, scaled_value np (Fin mn) (Fin mx) (Fin mx) = Fin x /\ (x == 255)%Q).
Proof.
  intros (Hd & Hpos & Ms & Es & Md & Ed0 & Ed1 & Mm & Em0 & Em255).
  assert (Hne : Qeq_bool d 0 = false).
  { apply not_true_is_false. intros E. apply Qeq_bool_eq in E. lra. }
  split.
  - destruct (Es (mn - mn)%Q) as (a & Ha & Ea); [ring|].
    destruct (Ed0 (a / d)%Q) as (b & Hb & Eb).
    { rewrite Ea. field. lra. }
    destruct (Em0 (b * 255)%Q) as (x & Hx & Ex).
    { rewrite Eb. ring. }
    exists x. split; [|exact Ex].
    unfold scaled_value. simpl. rewrite Ha, Hd. simpl.
    rewrite Hne, Hb. simpl. exact Hx.
  - destruct (Ed1 (d / d)%Q) as (b & Hb & Eb).
    { field. lra. }
    destruct (Em255 (b * 255)%Q) as (x & Hx & Ex).
    { rewrite Eb. ring. }
    exists x. split; [|exact Ex].
    unfold scaled_value. simpl. rewrite Hd. simpl.
    rewrite Hne, Hb. simpl. exact Hx.
Qed.

(** The scaled value of a valid sample, when the samples are finite and the
    arithmetic in order. *)
Lemma valid_sample_scaled ds mn mx d :
  Forall (fun c => isfinite c = true) (valid_samples ds) ->
  np_min (valid_samples ds) = inr (Fin mn) ->
  np_max (valid_samples ds) = inr (Fin mx) ->
  scaling_in_order np mn mx d ->
  forall c, In c (valid_samples ds) ->
    exists v x, c = Fin v /\ (mn <= v)%Q /\ (v <= mx)%Q /\
      scaled_value np (Fin mn) (Fin mx) c = Fin x /\
      (0 <= x)%Q /\ (x <= 255)%Q /\
      scale np nan8 (Fin mn) (Fin mx) c = Qfloor x /\
      0 <= scale np nan8 (Fin mn) (Fin mx) c <= 255.
Proof.
  intros Hfin Hmin Hmax Hord c Hc.
  destruct (finite_samples_bounds _ mn mx Hfin Hmin Hmax) as (_ & _ & Hb).
  destruct (Hb c Hc) as (v & -> & Hlo & Hhi).
  destruct (scaled_value_in_order mn mx d v Hord Hlo Hhi)
    as (a & b & x & _ & _ & _ & _ & _ & _ & _ & X0 & X1 & Hx).
  exists v, x. split; [reflexivity|].
  split; [exact Hlo|]. split; [exact Hhi|]. split; [exact Hx|].
  split; [exact X0|]. split; [exact X1|].
  unfold scale. rewrite Hx.
  destruct (astype_uint8_in_range x X0 X1) as [E R].
  rewrite E. split; [reflexivity | exact R].
Qed.

(** C5, as the code has it. When the valid samples are finite, not all
    equal, and the arithmetic of line 53 is in order between their bounds,
    every valid sample [v] lies between the bounds, the value
    [(v - min) / (max - min) * 255] is computed as a finite [x] of
    [[0, 255]], and the scaled value is the integer part of [x]: the
    fraction is dropped, not rounded. It lies in the closed range
    [0, 255]. *)
Theorem scaled_is_truncated ds mn mx d :
  Forall (fun c => isfinite c = true) (valid_samples ds) ->
  np_min (valid_samples ds) = inr (Fin mn) ->
  np_max (valid_samples ds) = inr (Fin mx) ->
  scaling_in_order np mn mx d ->
  forall c, In c (valid_samples ds) ->
    exists v x, c = Fin v /\ (mn <= v)%Q /\ (v <= mx)%Q /\
      scaled_value np (Fin mn) (Fin mx) c = Fin x /\
      (0 <= x)%Q /\ (x <= 255)%Q /\
      scale np nan8 (Fin mn) (Fin mx) c = Qfloor x /\
      0 <= scale np nan8 (Fin mn) (Fin mx) c <= 255.
Proof. exact (valid_sample_scaled ds mn mx d). Qed.

(** The three operations of line 57 on a bin of the histogram, when the
    arithmetic is in order: each result is finite and within its range. *)
Lemma otsu_value_in_order (mn mx d u : Q) (t : Z) :
  r_sub np (mx - mn)%Q = Fin d -> (0 <= d)%Q ->
  mapping_in_order np mn d u -> 0 <= t <= 255 ->
  exists q p thr,
    r_tdiv np (inject_Z t / 255)%Q = Fin q /\ (0 <= q)%Q /\ (q <= 1)%Q /\
    r_tmul np (q * d)%Q = Fin p /\ (0 <= p)%Q /\ (p <= d)%Q /\
    r_tadd np (mn + p)%Q = Fin thr /\ (mn <= thr)%Q /\ (thr <= u)%Q /\
    fadd (r_tadd np) (Fin mn)
         (fmul (r_tmul np) (fdiv (r_tdiv np) (Fin (inject_Z t)) (Fin 255))
               (fsub (r_sub np) (Fin mx) (Fin mn))) = Fin thr.
Proof.
  intros Hd Hpos (Md & Ed0 & Ed1 & Mm & Em0 & Emd & Ma & Ea & Hu) Ht.
  assert (Hf0 : (0 <= inject_Z t / 255)%Q).
  { apply Qle_shift_div_l; [lra|]. rewrite Qmult_0_l.
    change 0%Q with (inject_Z 0). rewrite <- Zle_Qle. lia. }
  assert (Hf1 : (inject_Z t / 255 <= 1)%Q).
  { apply Qle_shift_div_r; [lra|]. rewrite Qmult_1_l.
    change 255%Q with (inject_Z 255). rewrite <- Zle_Qle. lia. }
  destruct (Ed1 1%Q (Qeq_refl 1)) as (q1 & Hq1 & Eq1).
  destruct (rounded_between _ 0 1 _ q1 Md Ed0 Hq1 Hf0 Hf1) as (q & Hq & Q0 & Q1).
  destruct (Emd d (Qeq_refl d)) as (d1 & Hd1 & Edd).
  destruct (rounded_between _ 0 d (q * d) d1 Mm Em0 Hd1) as (p & Hp & P0 & P1);
    [nra | nra |].
  destruct (rounded_between _ mn (mn + d) (mn + p) u Ma Ea Hu)
    as (thr & Hthr & T0 & T1); [lra | lra |].
  exists q, p, thr.
  repeat split; try assumption; try lra.
  simpl. rewrite Hq, Hd. simpl. rewrite Hp. simpl. exact Hthr.
Qed.


(** The threshold computed on a constant field is the common value. *)
Lemma constant_field_threshold (mn mx : Q) (vs : list sample) :
  (mn == mx)%Q ->
  constant_in_order np (split_point np otsu nan8 (Fin mn) (Fin mx) vs) mn ->
  exists thr, otsu_value np otsu nan8 (Fin mn) (Fin mx) vs = Fin thr /\
              (thr == mn)%Q.
Proof.
  intros Heq (Es & Hq & Em & Ea).
  unfold otsu_value.
  set (t := split_point np otsu nan8 (Fin mn) (Fin mx) vs) in *.
  destruct (Es (mx - mn)%Q) as (d & Hd & Ed); [lra|].
  destruct (isfinite_Fin _ Hq) as (q & Eq).
  destruct (Em (q * d)%Q) as (p & Hp & Ep); [rewrite Ed; ring|].
  destruct (Ea (mn + p)%Q) as (thr & Hthr & Ethr); [lra|].
  exists thr. split; [|exact Ethr].
  simpl. rewrite Eq, Hd. simpl. rewrite Hp. simpl. exact Hthr.
Qed.

(** The run on a constant field of finite samples. *)
Lemma constant_field_run params w ds mn mx :
  files w !! INPUT params = Some ds ->
  Forall (fun c => isfinite c = true) (valid_samples ds) ->
  np_min (valid_samples ds) = inr (Fin mn) ->
  np_max (valid_samples ds) = inr (Fin mx) ->
  (mn == mx)%Q ->
  constant_in_order np
    (split_point np otsu nan8 (Fin mn) (Fin mx) (valid_samples ds)) mn ->
  exists thr,
    (thr == mn)%Q /\
    processAlgorithm np otsu nan8 params w =
      (inr (OUTPUT params),
       mk_world
         (<[OUTPUT params :=
              mk_dataset
                (ByteBand (amap (fun c => if is_valid (ds_nodata ds) c then 1 else 0)
                                (ReadAsArray (ds_band ds))))
                (Some (Fin 0)) (ds_geotransform ds) (ds_projection ds)]>
            (files w))
         (pushed w ++ [(" Порог Отсу: ", Fin thr)])).
Proof.
  intros Hopen Hfin Hmin Hmax Heq Hord.
  destruct (constant_field_threshold mn mx _ Heq Hord) as (thr & Hthr & Ethr).
  pose proof (processAlgorithm_run params w ds Hopen) as Hrun.
  rewrite Hmin, Hmax in Hrun. cbv zeta in Hrun. rewrite Hthr in Hrun.
  exists thr. split; [exact Ethr|]. rewrite Hrun.
  assert (Hband : amap (mask_cell (ds_nodata ds) (Fin thr))
                    (ReadAsArray (ds_band ds))
                  = amap (fun c => if is_valid (ds_nodata ds) c then 1 else 0)
                      (ReadAsArray (ds_band ds))); [|rewrite Hband; reflexivity].
  unfold amap. f_equal.
  apply map_ext_in. intros c Hc.
  unfold mask_cell.
  destruct (is_valid (ds_nodata ds) c) eqn:Hv; [|reflexivity].
  assert (Hin : In c (valid_samples ds)).
  { unfold valid_samples. apply List.filter_In. split; assumption. }
  destruct (finite_samples_bounds _ mn mx Hfin Hmin Hmax) as (_ & _ & Hb).
  destruct (Hb c Hin) as (v & -> & Hlo & _).
  simpl. assert (Hle : Qle_bool thr v = true) by (apply Qle_bool_iff; lra).
  rewrite Hle. reflexivity.
Qed.

(** C3, as the code has it. On a raster whose valid samples are all equal to
    one finite value (their minimum and maximum are finite and equal), and
    when the arithmetic of line 57 is in order, the segmenter does not fail:
    it reports that common value as the threshold and writes a mask that is
    1 on exactly the valid cells. *)
Theorem constant_field_is_thresholded params w ds mn mx :
  files w !! INPUT params = Some ds ->
  Forall (fun c => isfinite c = true) (valid_samples ds) ->
  np_min (valid_samples ds) = inr (Fin mn) ->
  np_max (valid_samples ds) = inr (Fin mx) ->
  (mn == mx)%Q ->
  constant_in_order np
    (split_point np otsu nan8 (Fin mn) (Fin mx) (valid_samples ds)) mn ->
  let arr := ReadAsArray (ds_band ds) in
  exists thr out mask w',
    processAlgorithm np otsu nan8 params w = (inr (OUTPUT params), w') /\
    reported w' = Some (Fin thr) /\ (thr == mn)%Q /\
    files w' !! OUTPUT params = Some out /\
    ds_band out = ByteBand mask /\
    forall i j c, getitem arr i j = Some c ->
      getitem mask i j = Some (if is_valid (ds_nodata ds) c then 1 else 0).
Proof.
  intros Hopen Hfin Hmin Hmax Heq Hord arr.
  destruct (constant_field_run params w ds mn mx Hopen Hfin Hmin Hmax Heq Hord)
    as (thr & Ethr & Hrun).
  exists thr. do 2 eexists. eexists.
  split; [exact Hrun|].
  split; [unfold reported; simpl; rewrite last_snoc; reflexivity|].
  split; [exact Ethr|].
  split; [apply lookup_insert_eq|].
  split; [reflexivity|].
  intros i j c Hc. unfold arr in Hc. rewrite getitem_amap, Hc. reflexivity.
Qed.

End OtsuWaterMaskProperties.

(** The arithmetic without rounding is in order on every range. *)
Lemma exact_scaling_in_order (mn mx : Q) :
  (mn < mx)%Q -> OtsuWaterMask.scaling_in_order exact mn mx (mx - mn).
Proof.
  intros Hlt. unfold OtsuWaterMask.scaling_in_order. simpl.
  split; [reflexivity|]. split; [lra|].
  repeat split; try apply exact_monotone; apply exact_exact_at.
Qed.

Lemma exact_mapping_in_order (mn d : Q) :
  OtsuWaterMask.mapping_in_order exact mn d (mn + d).
Proof.
  unfold OtsuWaterMask.mapping_in_order. simpl.
  repeat split; try apply exact_monotone; apply exact_exact_at.
Qed.

Lemma exact_constant_in_order (t : Z) (v : Q) :
  OtsuWaterMask.constant_in_order exact t v.
Proof.
  unfold OtsuWaterMask.constant_in_order. simpl.
  repeat split; apply exact_exact_at.
Qed.

(** The arithmetic of a byte band is in order on a constant field. *)
Lemma wrap8_exact_at_0 : exact_at wrap8 0.
Proof.
  intros x Hx. eexists. split; [reflexivity|].
  rewrite Hx. reflexivity.
Qed.

Lemma uint8_constant_in_order (t : Z) (v : Q) :
  OtsuWaterMask.constant_in_order uint8 t v.
Proof.
  unfold OtsuWaterMask.constant_in_order. simpl.
  split; [exact wrap8_exact_at_0|]. split; [reflexivity|].
  split; apply exact_exact_at.
Qed.

(** The arithmetic of a 16-bit band is in order between integer bounds
    whose difference the type holds. *)
Lemma wrap16_small (q : Q) :
  (0 <= q)%Q -> (q <= 32767)%Q -> wrap16 q = Fin (inject_Z (Qfloor q)).
Proof.
  intros H0 H1. unfold wrap16. do 2 f_equal.
  assert (L0 : 0 <= Qfloor q).
  { change 0 with (Qfloor 0). now apply Qfloor_resp_le. }
  assert (L1 : Qfloor q <= 32767).
  { change 32767 with (Qfloor 32767). now apply Qfloor_resp_le. }
  rewrite Z.mod_small; lia.
Qed.

Lemma int16_scaling_in_order (a b : Z) :
  a < b -> b - a <= 32767 ->
  OtsuWaterMask.scaling_in_order int16 (inject_Z a) (inject_Z b)
    (inject_Z (b - a)).
Proof.
  intros Hab Hrange.
  assert (Ed : (inject_Z b - inject_Z a == inject_Z (b - a))%Q).
  { unfold Z.sub. rewrite inject_Z_plus, inject_Z_opp. reflexivity. }
  assert (Hd0 : (0 < inject_Z (b - a))%Q).
  { change 0%Q with (inject_Z 0). rewrite <- Zlt_Qlt. lia. }
  assert (Hd1 : (inject_Z (b - a) <= 32767)%Q).
  { change 32767%Q with (inject_Z 32767). rewrite <- Zle_Qle. lia. }
  unfold OtsuWaterMask.scaling_in_order. simpl.
  split.
  { rewrite wrap16_small; [|lra|lra]. rewrite Ed, Qfloor_Z. reflexivity. }
  split; [exact Hd0|].
  split.
  { intros x y H0 Hxy H1.
    rewrite !wrap16_small; try lra.
    simpl. apply Qle_bool_iff. rewrite <- Zle_Qle.
    apply Qfloor_resp_le. exact Hxy. }
  split.
  { intros x Hx. eexists. split; [reflexivity|]. rewrite Hx. reflexivity. }
  repeat split; try apply exact_monotone; apply exact_exact_at.
Qed.

(** ** The instance of the Otsu primitive answers a bin *)

Lemma cv2_step_bin src scale mu st i :
  0 <= i <= 255 -> 0 <= cv2.max_val st <= 255 ->
  0 <= cv2.max_val (cv2.step src scale mu st i) <= 255.
Proof.
  intros Hi Hst. unfold cv2.step.
  repeat match goal with |- context [if ?b then _ else _] => destruct b end;
    simpl; assumption.
Qed.

Lemma cv2_scan_bin src scale mu (l : list Z) st :
  Forall (fun i => 0 <= i <= 255) l -> 0 <= cv2.max_val st <= 255 ->
  0 <= cv2.max_val (fold_left (cv2.step src scale mu) l st) <= 255.
Proof.
  intros Hl; revert st; induction Hl as [|i l Hi _ IH]; intros st Hst; simpl.
  - exact Hst.
  - apply IH, cv2_step_bin; assumption.
Qed.

Lemma cv2_threshold_otsu_bin (src : list Z) :
  0 <= cv2.threshold_otsu src <= 255.
Proof.
  unfold cv2.threshold_otsu. apply cv2_scan_bin; [|simpl; lia].
  unfold cv2.bins. apply List.Forall_forall. intros i Hi.
  apply List.in_map_iff in Hi as (n & <- & Hn).
  apply List.in_seq in Hn. lia.
Qed.

(** ** The segmenter on the sample rasters *)

Section SegmenterRuns.
Import OtsuWaterMask Samples.


Lemma no_valid_sample_fails_witness :
  files (disk void_raster) !! INPUT in_out = Some void_raster /\
  (forall c, In c (flat (ReadAsArray (ds_band void_raster))) ->
     is_valid (ds_nodata void_raster) c = false) /\
  processAlgorithm exact cv2.threshold_otsu (fun _ => 0) in_out (disk void_raster)
    = (inl ValueError, disk void_raster).
Proof.
  assert (Hopen : files (disk void_raster) !! INPUT in_out = Some void_raster)
    by reflexivity.
  assert (Hnone : forall c, In c (flat (ReadAsArray (ds_band void_raster))) ->
                    is_valid (ds_nodata void_raster) c = false).
  { simpl. intros c [<-|[<-|[<-|[]]]]; reflexivity. }
  split; [exact Hopen|]. split; [exact Hnone|].
  exact (no_valid_sample_fails exact cv2.threshold_otsu (fun _ => 0) in_out
           (disk void_raster) void_raster Hopen Hnone).
Defined.

(** The valid samples of the sample raster are finite. *)
Lemma index_raster_finite :
  Forall (fun c => isfinite c = true) (valid_samples index_raster).
Proof. repeat constructor. Qed.

Lemma scaled_is_truncated_witness :
  Forall (fun c => isfinite c = true) (valid_samples index_raster) /\
  np_min (valid_samples index_raster) = inr (Fin 0) /\
  np_max (valid_samples index_raster) = inr (Fin 300) /\
  scaling_in_order exact 0 300 (300 - 0) /\
  In (Fin 150) (valid_samples index_raster) /\
  exists v x, Fin 150 = Fin v /\ (0 <= v)%Q /\ (v <= 300)%Q /\
    scaled_value exact (Fin 0) (Fin 300) (Fin 150) = Fin x /\
    (0 <= x)%Q /\ (x <= 255)%Q /\
    scale exact (fun _ => 0) (Fin 0) (Fin 300) (Fin 150) = Qfloor x /\
    0 <= scale exact (fun _ => 0) (Fin 0) (Fin 300) (Fin 150) <= 255.
Proof.
  assert (Hmin : np_min (valid_samples index_raster) = inr (Fin 0)) by reflexivity.
  assert (Hmax : np_max (valid_samples index_raster) = inr (Fin 300)) by reflexivity.
  assert (Hlt : (0 < 300)%Q) by reflexivity.
  assert (Hin : In (Fin 150) (valid_samples index_raster)).
  { simpl. right; right; right; left. reflexivity. }
  split; [exact index_raster_finite|].
  split; [exact Hmin|]. split; [exact Hmax|].
  split; [exact (exact_scaling_in_order 0 300 Hlt)|].
  split; [exact Hin|].
  exact (scaled_is_truncated exact (fun _ => 0) index_raster 0 300 (300 - 0)
           index_raster_finite Hmin Hmax (exact_scaling_in_order 0 300 Hlt)
           (Fin 150) Hin).
Defined.

(** C5, as stated, fails: between the bounds 0 and 300 of the sample raster
    the valid sample 1 is scaled to 0, where rounding 0.85 gives 1. No
    operation of line 53 is rounded on these values but the quotient, whose
    rounding leaves it between 0 and 1/255. *)
Lemma scaled_is_not_rounded :
  np_min (valid_samples index_raster) = inr (Fin 0) /\
  np_max (valid_samples index_raster) = inr (Fin 300) /\
  In (Fin 1) (valid_samples index_raster) /\
  scale exact (fun _ => 0) (Fin 0) (Fin 300) (Fin 1) = 0 /\
  spec_scaled 0 300 1 = 1.
Proof.
  repeat split; try reflexivity.
  simpl. right; left. reflexivity.
Qed.



(** C3, as stated, fails: on the sample raster whose valid samples are all
    5 the segmenter returns, reports a threshold and writes the mask. *)
Lemma constant_field_does_not_fail :
  valid_samples constant_raster = [Fin 5; Fin 5; Fin 5] /\
  fst (processAlgorithm exact cv2.threshold_otsu (fun _ => 0) in_out
         (disk constant_raster))
    = inr (OUTPUT in_out) /\
  ds_band <$> files (snd (processAlgorithm exact cv2.threshold_otsu (fun _ => 0)
                            in_out (disk constant_raster))) !! OUTPUT in_out
    = Some (ByteBand (mk_ndarray (2, 2)%nat [1; 1; 0; 1])).
Proof. repeat split; vm_compute; reflexivity. Qed.

Lemma constant_field_is_thresholded_witness :
  files (disk constant_raster) !! INPUT in_out = Some constant_raster /\
  Forall (fun c => isfinite c = true) (valid_samples constant_raster) /\
  np_min (valid_samples constant_raster) = inr (Fin 5) /\
  np_max (valid_samples constant_raster) = inr (Fin 5) /\
  (5 == 5)%Q /\
  constant_in_order exact
    (split_point exact cv2.threshold_otsu (fun _ => 0) (Fin 5) (Fin 5)
       (valid_samples constant_raster)) 5 /\
  exists thr out mask w',
    processAlgorithm exact cv2.threshold_otsu (fun _ => 0) in_out
      (disk constant_raster) = (inr (OUTPUT in_out), w') /\
    reported w' = Some (Fin thr) /\ (thr == 5)%Q /\
    files w' !! OUTPUT in_out = Some out /\
    ds_band out = ByteBand mask /\
    forall i j c, getitem (ReadAsArray (ds_band constant_raster)) i j = Some c ->
      getitem mask i j =
        Some (if is_valid (ds_nodata constant_raster) c then 1 else 0).
Proof.
  assert (Hopen : files (disk constant_raster) !! INPUT in_out
                  = Some constant_raster) by reflexivity.
  assert (Hfin : Forall (fun c => isfinite c = true)
                   (valid_samples constant_raster)) by (repeat constructor).
  assert (Hmin : np_min (valid_samples constant_raster) = inr (Fin 5))
    by reflexivity.
  assert (Hmax : np_max (valid_samples constant_raster) = inr (Fin 5))
    by reflexivity.
  assert (Heq : (5 == 5)%Q) by reflexivity.
  split; [exact Hopen|]. split; [exact Hfin|].
  split; [exact Hmin|]. split; [exact Hmax|]. split; [exact Heq|].
  split; [apply exact_constant_in_order|].
  exact (constant_field_is_thresholded exact cv2.threshold_otsu (fun _ => 0)
           in_out (disk constant_raster) constant_raster 5 5
           Hopen Hfin Hmin Hmax Heq (exact_constant_in_order _ 5)).
Defined.

(** On a constant field of infinite samples the range [inf - inf] is a NaN:
    the segmenter reports a NaN and writes a mask without a 1. *)
Lemma infinite_constant_field_reports_nan :
  valid_samples infinite_raster = [Inf false; Inf false] /\
  reported (snd (processAlgorithm exact cv2.threshold_otsu (fun _ => 0) in_out
                   (disk infinite_raster))) = Some NaN /\
  ds_band <$> files (snd (processAlgorithm exact cv2.threshold_otsu (fun _ => 0)
                            in_out (disk infinite_raster))) !! OUTPUT in_out
    = Some (ByteBand (mk_ndarray (1, 3)%nat [0; 0; 0])).
Proof. repeat split; vm_compute; reflexivity. Qed.

(** The arithmetic of fixed precision is in order between the bounds 0 and
    300 of the sample raster, and there the integer part of the computed
    value is not that of the exact one: the sample 100 is scaled to 84,
    where [100 / 300 * 255] is 85. *)
Lemma fixed_point_scaling_in_order :
  scaling_in_order fixed_point 0 300
    (inject_Z (Qfloor ((300 - 0) * 1024)) / 1024).
Proof.
  unfold scaling_in_order. simpl.
  split; [reflexivity|]. split; [reflexivity|].
  repeat split; try apply round_down_monotone.
  - exact (round_down_exact_at 0).
  - exact (round_down_exact_at 0).
  - exact (round_down_exact_at 1).
  - exact (round_down_exact_at 0).
  - exact (round_down_exact_at 255).
Qed.

Lemma rounding_changes_the_bin :
  scale fixed_point (fun _ => 0) (Fin 0) (Fin 300) (Fin 100) = 84 /\
  scale exact (fun _ => 0) (Fin 0) (Fin 300) (Fin 100) = 85.
Proof. split; reflexivity. Qed.

(** On a band of 16-bit integers whose range exceeds the type the
    differences of line 53 wrap: the samples -20000, 10000, 15000 and 20000
    are scaled to 0, 213, 48 and 255, out of order, and the reported
    threshold is below the minimum. *)
Lemma int16_range_wraps :
  valid_samples int16_raster
    = [Fin (-20000); Fin 10000; Fin 15000; Fin 20000] /\
  fsub (r_sub int16) (Fin 20000) (Fin (-20000)) = Fin (-25536) /\
  map (scale int16 (fun _ => 0) (Fin (-20000)) (Fin 20000))
      (valid_samples int16_raster) = [0; 213; 48; 255] /\
  exists thr,
    reported (snd (processAlgorithm int16 cv2.threshold_otsu (fun _ => 0) in_out
                     (disk int16_raster))) = Some (Fin thr) /\
    (thr < -20000)%Q.
Proof.
  split; [reflexivity|]. split; [reflexivity|]. split; [reflexivity|].
  eexists. split; [vm_compute; reflexivity|]. reflexivity.
Qed.

End SegmenterRuns.

(** ** The object classifier *)

Lemma Qltb_lt (a b : Q) : Qltb a b = true <-> (a < b)%Q.
Proof.
  unfold Qltb. rewrite negb_true_iff. split.
  - intros H. apply Qnot_le_lt. intros L.
    apply Qle_bool_iff in L. congruence.
  - intros H. apply not_true_is_false. intros L.
    apply Qle_bool_iff in L. lra.
Qed.

Lemma Qltb_ge (a b : Q) : Qltb a b = false <-> (b <= a)%Q.
Proof.
  unfold Qltb. rewrite negb_false_iff. apply Qle_bool_iff.
Qed.

Section ClassifierProperties.
Import WaterObjectClassification.

Variable gdal_polygonize : OtsuWaterMask.dataset -> Exc QgsVectorLayer.
Variable distance : QgsPointXY -> QgsPointXY -> Q.

(** The side lengths exist exactly for a ring of five points or more, and
    are then the distances between its first five points in turn. *)
Lemma side_lengths_rect p0 p1 p2 p3 p4 rest :
  side_lengths distance (p0 :: p1 :: p2 :: p3 :: p4 :: rest) =
    inr [distance p0 p1; distance p1 p2; distance p2 p3; distance p3 p4].
Proof. reflexivity. Qed.

Lemma side_lengths_inv ring sides :
  side_lengths distance ring = inr sides ->
  exists p0 p1 p2 p3 p4 rest,
    ring = p0 :: p1 :: p2 :: p3 :: p4 :: rest /\
    sides = [distance p0 p1; distance p1 p2; distance p2 p3; distance p3 p4].
Proof.
  destruct ring as [|p0 [|p1 [|p2 [|p3 [|p4 rest]]]]]; try discriminate.
  rewrite side_lengths_rect. intros E. injection E as <-.
  exists p0, p1, p2, p3, p4, rest. split; reflexivity.
Qed.

(** The width is at most, and the height at least, the first side. *)
Lemma width_le_height (s0 s1 s2 s3 : Q) :
  (Qmin (Qmin (Qmin s0 s1) s2) s3 <= s0)%Q /\
  (s0 <= Qmax (Qmax (Qmax s0 s1) s2) s3)%Q.
Proof.
  pose proof (Q.le_min_l (Qmin (Qmin s0 s1) s2) s3).
  pose proof (Q.le_min_l (Qmin s0 s1) s2).
  pose proof (Q.le_min_l s0 s1).
  pose proof (Q.le_max_l (Qmax (Qmax s0 s1) s2) s3).
  pose proof (Q.le_max_l (Qmax s0 s1) s2).
  pose proof (Q.le_max_l s0 s1).
  split; lra.
Qed.

(** The three paths of lines 118-133. *)
Lemma elongation_main_axis_cases geom :
  match QgsGeometry.orientedMinimumBoundingBox geom with
  | None => elongation_main_axis distance geom = inr (1%Q, 0%Q)
  | Some rect =>
      if QgsGeometry.isGeosValid rect then
        match item (QgsGeometry.asPolygon rect) 0 with
        | inl e => elongation_main_axis distance geom = inl e
        | inr ring =>
            match side_lengths distance ring with
            | inl e => elongation_main_axis distance geom = inl e
            | inr sides =>
                exists s0 s1 s2 s3,
                  sides = [s0; s1; s2; s3] /\
                  let width := Qmin (Qmin (Qmin s0 s1) s2) s3 in
                  let height := Qmax (Qmax (Qmax s0 s1) s2) s3 in
                  elongation_main_axis distance geom =
                    inr ((if Qltb 0 width then height / width else 1)%Q, height)
            end
        end
      else elongation_main_axis distance geom = inr (1%Q, 0%Q)
  end.
Proof.
  unfold elongation_main_axis.
  destruct (QgsGeometry.orientedMinimumBoundingBox geom) as [rect|]; [|reflexivity].
  destruct (QgsGeometry.isGeosValid rect); [|reflexivity].
  destruct (item (QgsGeometry.asPolygon rect) 0) as [e|ring]; [reflexivity|].
  simpl.
  destruct (side_lengths distance ring) as [e|sides] eqn:Hs; [reflexivity|].
  destruct (side_lengths_inv ring sides Hs) as (p0 & p1 & p2 & p3 & p4 & rest & _ & ->).
  eexists _, _, _, _. split; [reflexivity|]. reflexivity.
Qed.

Lemma last_derived {A} (l : list A) (a b c d e : A) :
  last (l ++ [a; b; c; d; e]) = Some e.
Proof.
  change [a; b; c; d; e] with ([a; b; c; d] ++ [e]).
  rewrite app_assoc. apply last_snoc.
Qed.

(** The feature built for an input feature, when the measurement returns. *)
Lemma classified_inr flds f g :
  classified distance flds f = inr g ->
  exists e m,
    elongation_main_axis distance (geometry f) = inr (e, m) /\
    g = mk_feature flds (geometry f)
          (attributes f ++
             [VDouble (QgsGeometry.area (geometry f));
              VDouble (QgsGeometry.length (geometry f));
              VDouble e; VDouble m;
              VString (classify (QgsGeometry.area (geometry f)) e m)]).
Proof.
  unfold classified.
  destruct (elongation_main_axis distance (geometry f)) as [err|[e m]];
    [discriminate|].
  intros E. injection E as <-. exists e, m. split; reflexivity.
Qed.

Lemma classified_of_measure flds f e m :
  elongation_main_axis distance (geometry f) = inr (e, m) ->
  classified distance flds f =
    inr (mk_feature flds (geometry f)
           (attributes f ++
              [VDouble (QgsGeometry.area (geometry f));
               VDouble (QgsGeometry.length (geometry f));
               VDouble e; VDouble m;
               VString (classify (QgsGeometry.area (geometry f)) e m)])).
Proof. unfold classified. intros ->. reflexivity. Qed.

Lemma rule_fails (a b c d : Q) :
  ~ ((a < b)%Q /\ (c < d)%Q) -> Qltb a b && Qltb c d = false.
Proof.
  intros H. apply not_true_is_false. intros E.
  apply andb_prop in E as [E1 E2].
  apply H. split; apply Qltb_lt; assumption.
Qed.

Lemma rule_holds (a b c d : Q) :
  (a < b)%Q /\ (c < d)%Q -> Qltb a b && Qltb c d = true.
Proof.
  intros [H1 H2]. apply Qltb_lt in H1, H2. rewrite H1, H2. reflexivity.
Qed.

(** C2. The label is decided by the ordered rule chain, the first rule that
    holds giving the label; the three sample polygons get Pond, River and
    Lake; and the label of every feature the classifier builds is that of
    its area, elongation and main axis. *)
Theorem classification_rules :
  (forall area e m : Q,
     let river := (8000 < m)%Q /\ (3 < e)%Q in
     let lake := (500000 < area)%Q /\ (e < 2)%Q in
     let creek := (area < 20000)%Q /\ (2 < e)%Q in
     let pond := (area < 10000)%Q in
     (river -> classify area e m = River) /\
     (~ river -> lake -> classify area e m = Lake) /\
     (~ river -> ~ lake -> creek -> classify area e m = Creek) /\
     (~ river -> ~ lake -> ~ creek -> pond -> classify area e m = Pond) /\
     (~ river -> ~ lake -> ~ creek -> ~ pond -> classify area e m = Generic)) /\
  (forall m : Q, classify 5000 1 m = Pond) /\
  (forall area : Q, classify area 5 10000 = River) /\
  (forall m : Q, classify 600000 1 m = Lake) /\
  (forall flds f g, classified distance flds f = inr g ->
     exists e m,
       elongation_main_axis distance (geometry f) = inr (e, m) /\
       last (attributes g) =
         Some (VString (classify (QgsGeometry.area (geometry f)) e m))).
Proof.
  split; [|split; [|split; [|split]]].
  - intros area e m river lake creek pond. unfold classify.
    split; [|split; [|split; [|split]]].
    + intros R. rewrite (rule_holds _ _ _ _ R). reflexivity.
    + intros R L. rewrite (rule_fails _ _ _ _ R), (rule_holds _ _ _ _ L).
      reflexivity.
    + intros R L C.
      rewrite (rule_fails _ _ _ _ R), (rule_fails _ _ _ _ L),
        (rule_holds _ _ _ _ C).
      reflexivity.
    + intros R L C P.
      rewrite (rule_fails _ _ _ _ R), (rule_fails _ _ _ _ L),
        (rule_fails _ _ _ _ C).
      apply Qltb_lt in P. rewrite P. reflexivity.
    + intros R L C P.
      rewrite (rule_fails _ _ _ _ R), (rule_fails _ _ _ _ L),
        (rule_fails _ _ _ _ C).
      assert (E : Qltb area 10000 = false).
      { apply not_true_is_false. intros E. apply P, Qltb_lt, E. }
      rewrite E. reflexivity.
  - intros m. unfold classify.
    change (Qltb 3 1) with false. rewrite andb_false_r. reflexivity.
  - intros area. reflexivity.
  - intros m. unfold classify.
    change (Qltb 3 1) with false. rewrite andb_false_r. reflexivity.
  - intros flds f g Hg.
    destruct (classified_inr flds f g Hg) as (e & m & Hm & ->).
    exists e, m. split; [exact Hm|]. simpl. apply last_derived.
Qed.

Section Distances.

Hypothesis distance_nonneg : forall p q, (0 <= distance p q)%Q.

(** The bounds of a measurement. *)
Lemma measure_bounds geom e m :
  elongation_main_axis distance geom = inr (e, m) ->
  (1 <= e)%Q /\ (0 <= m)%Q.
Proof.
  intros Hm. pose proof (elongation_main_axis_cases geom) as Hcases.
  destruct (QgsGeometry.orientedMinimumBoundingBox geom) as [rect|].
  2: { rewrite Hm in Hcases. injection Hcases as -> ->. split; lra. }
  destruct (QgsGeometry.isGeosValid rect).
  2: { rewrite Hm in Hcases. injection Hcases as -> ->. split; lra. }
  destruct (item (QgsGeometry.asPolygon rect) 0) as [err|ring];
    [rewrite Hm in Hcases; discriminate Hcases|].
  destruct (side_lengths distance ring) as [err|sides] eqn:Hs;
    [rewrite Hm in Hcases; discriminate Hcases|].
  destruct Hcases as (s0 & s1 & s2 & s3 & -> & Hm').
  cbv zeta in Hm'. rewrite Hm in Hm'. injection Hm' as -> ->.
  destruct (side_lengths_inv ring _ Hs) as (p0 & p1 & p2 & p3 & p4 & rest & _ & E).
  injection E as -> -> -> ->.
  set (s0 := distance p0 p1). set (s1 := distance p1 p2).
  set (s2 := distance p2 p3). set (s3 := distance p3 p4).
  destruct (width_le_height s0 s1 s2 s3) as [Hw Hh].
  pose proof (distance_nonneg p0 p1) as H0. fold s0 in H0.
  split; [|lra].
  destruct (Qltb 0 _) eqn:Hpos; [|lra].
  apply Qltb_lt in Hpos.
  apply Qle_shift_div_l; [exact Hpos | lra].
Qed.

End Distances.

(** *** The loop *)

Lemma with_features_nil l : with_features l [] = l.
Proof. destruct l. unfold with_features. simpl. rewrite app_nil_r. reflexivity. Qed.

Lemma with_features_app l gs hs :
  with_features (with_features l gs) hs = with_features l (gs ++ hs).
Proof. unfold with_features. simpl. rewrite app_assoc. reflexivity. Qed.

(** One iteration. *)
Lemma loop_cons isC flds d total i f rest w :
  loop distance isC flds d total i (f :: rest) w =
    if isC i then (inr tt, w)
    else match classified distance flds f with
         | inl e => (inl e, w)
         | inr g =>
             match percent i total with
             | inl e => (inl e, snd (addFeature d g w))
             | inr p =>
                 loop distance isC flds d total (S i) rest
                      (snd (setProgress p (snd (addFeature d g w))))
             end
         end.
Proof.
  simpl. destruct (isC i); [reflexivity|].
  unfold mbind, M_bind, lift.
  destruct (classified distance flds f) as [e|g]; [reflexivity|].
  simpl. destruct (percent i total) as [e|p]; reflexivity.
Qed.

Lemma addFeature_lookup d g w l :
  outputs w !! d = Some l ->
  outputs (snd (addFeature d g w)) !! d = Some (with_features l [g]).
Proof.
  intros H. simpl. rewrite lookup_alter_eq, H. reflexivity.
Qed.

Lemma addFeature_other d g w k :
  k <> d -> outputs (snd (addFeature d g w)) !! k = outputs w !! k.
Proof. intros H. simpl. apply lookup_alter_ne. congruence. Qed.

(** Whatever the outcome, the loop only appends features it has built from
    the features it was given. *)
Lemma loop_emits isC flds d total fs :
  forall i w r w' l,
    outputs w !! d = Some l ->
    loop distance isC flds d total i fs w = (r, w') ->
    exists gs,
      outputs w' !! d = Some (with_features l gs) /\
      Forall (fun g => exists f, In f fs /\ classified distance flds f = inr g) gs.
Proof.
  induction fs as [|f rest IH]; intros i w r w' l Hl Hrun.
  - injection Hrun as <- <-. exists []. rewrite with_features_nil.
    split; [exact Hl | constructor].
  - rewrite loop_cons in Hrun.
    destruct (isC i).
    { injection Hrun as <- <-. exists []. rewrite with_features_nil.
      split; [exact Hl | constructor]. }
    destruct (classified distance flds f) as [e|g] eqn:Hg.
    { injection Hrun as <- <-. exists []. rewrite with_features_nil.
      split; [exact Hl | constructor]. }
    pose proof (addFeature_lookup d g w l Hl) as Hl1.
    destruct (percent i total) as [e|p].
    { injection Hrun as <- <-. exists [g]. split; [exact Hl1|].
      constructor; [|constructor]. exists f. split; [now left | exact Hg]. }
    eapply IH in Hrun; [|exact Hl1].
    destruct Hrun as (gs & Hout & Hgs).
    exists (g :: gs). rewrite with_features_app in Hout.
    split; [exact Hout|].
    constructor.
    + exists f. split; [now left | exact Hg].
    + eapply Forall_impl; [exact Hgs|].
      intros g' (f' & Hin & Hf'). exists f'. split; [now right | exact Hf'].
Qed.

Lemma percent_inr i total : total <> 0%nat -> exists p, percent i total = inr p.
Proof.
  intros H. unfold percent. destruct (decide (total = 0%nat)); [contradiction|].
  eexists; reflexivity.
Qed.

Lemma percent_inr_inv i total p : percent i total = inr p -> total <> 0%nat.
Proof.
  unfold percent. destruct (decide (total = 0%nat)); [discriminate|].
  intros _. assumption.
Qed.


(** When every feature can be measured, the loop returns, having appended
    the features built for those it reached before a cancellation. *)
Lemma loop_run isC flds d total fs gs :
  Forall2 (fun f g => classified distance flds f = inr g) fs gs ->
  forall i w l,
    fs = [] \/ total <> 0%nat ->
    outputs w !! d = Some l ->
    exists w',
      loop distance isC flds d total i fs w = (inr tt, w') /\
      outputs w' !! d =
        Some (with_features l (take (iterations isC i (List.length fs)) gs)) /\
      (forall k, k <> d -> outputs w' !! k = outputs w !! k) /\
      pushed w' = pushed w.
Proof.
  induction 1 as [|f g fs gs Hg _ IH]; intros i w l Htotal Hl.
  - exists w. simpl. rewrite with_features_nil. auto.
  - rewrite loop_cons. simpl iterations.
    destruct (isC i).
    { exists w. simpl. rewrite with_features_nil. auto. }
    rewrite Hg.
    destruct Htotal as [E|Htotal]; [discriminate E|].
    destruct (percent_inr i total Htotal) as (p & ->).
    pose proof (addFeature_lookup d g w l Hl) as Hl1.
    destruct (IH (S i) (snd (setProgress p (snd (addFeature d g w))))
                 (with_features l [g]) (or_intror Htotal) Hl1)
      as (w' & Hrun & Hout & Hother & Hpushed).
    exists w'. split; [exact Hrun|].
    rewrite with_features_app in Hout. split; [exact Hout|].
    split; [|exact Hpushed].
    intros k Hk. rewrite (Hother k Hk). apply (addFeature_other d g w k Hk).
Qed.

(** A loop that is not cancelled and returns has measured every feature. *)
Lemma loop_inr_inv isC flds d total fs :
  forall i w w',
    (forall k, (k < List.length fs)%nat -> isC (i + k)%nat = false) ->
    loop distance isC flds d total i fs w = (inr tt, w') ->
    (exists gs, Forall2 (fun f g => classified distance flds f = inr g) fs gs) /\
    (fs = [] \/ total <> 0%nat).
Proof.
  induction fs as [|f rest IH]; intros i w w' HisC Hrun.
  - split; [exists []; constructor | now left].
  - rewrite loop_cons in Hrun.
    pose proof (HisC 0%nat ltac:(simpl; lia)) as H0.
    rewrite Nat.add_0_r in H0. rewrite H0 in Hrun.
    destruct (classified distance flds f) as [e|g] eqn:Hg; [discriminate Hrun|].
    destruct (percent i total) as [e|p] eqn:Hp; [discriminate Hrun|].
    apply IH in Hrun.
    + destruct Hrun as [(gs & Hgs) _]. split.
      * exists (g :: gs). constructor; assumption.
      * right. eapply percent_inr_inv, Hp.
    + intros k Hk. replace (S i + k)%nat with (i + S k)%nat by lia.
      apply HisC. simpl. lia.
Qed.

Lemma iterations_all isC n :
  forall i, (forall k, (k < n)%nat -> isC (i + k)%nat = false) ->
            iterations isC i n = n.
Proof.
  induction n as [|n IH]; intros i H; simpl; [reflexivity|].
  pose proof (H 0%nat ltac:(lia)) as H0. rewrite Nat.add_0_r in H0.
  rewrite H0. f_equal. apply IH. intros k Hk.
  replace (S i + k)%nat with (i + S k)%nat by lia. apply H. lia.
Qed.

Lemma iterations_first isC n :
  forall i k, (k < n)%nat -> isC (i + k)%nat = true ->
    (iterations isC i n <= k)%nat /\
    isC (i + iterations isC i n)%nat = true /\
    (forall m, (m < iterations isC i n)%nat -> isC (i + m)%nat = false).
Proof.
  induction n as [|n IH]; intros i k Hk Hc; [lia|]. simpl.
  destruct (isC i) eqn:Hi.
  - rewrite Nat.add_0_r. split; [lia|]. split; [exact Hi|]. intros m Hm. lia.
  - destruct k as [|k]; [rewrite Nat.add_0_r in Hc; congruence|].
    replace (i + S k)%nat with (S i + k)%nat in Hc by lia.
    destruct (IH (S i) k ltac:(lia) Hc) as (Hle & Htrue & Hfalse).
    split; [lia|]. split.
    + replace (i + S (iterations isC (S i) n))%nat
        with (S i + iterations isC (S i) n)%nat by lia. exact Htrue.
    + intros [|m] Hm; [rewrite Nat.add_0_r; exact Hi|].
      replace (i + S m)%nat with (S i + m)%nat by lia. apply Hfalse. lia.
Qed.

(** *** The whole run *)

Lemma extractbyattribute_inr vectorized only_water :
  extractbyattribute vectorized "DN" 1 = inr only_water ->
  exists k,
    field_index (layer_fields vectorized) "DN" = Some k /\
    only_water =
      mk_layer (layer_fields vectorized) (wkbType vectorized)
               (sourceCrs vectorized)
               (List.filter (has_value k 1) (features vectorized)).
Proof.
  unfold extractbyattribute.
  destruct (field_index (layer_fields vectorized) "DN") as [k|]; [|discriminate].
  intros E. injection E as <-. exists k. split; reflexivity.
Qed.

Lemma processAlgorithm_steps isC params w :
  processAlgorithm gdal_polygonize distance isC params w =
    let out := OUTPUT params in
    let w0 := mk_world (delete out (outputs w))
                       (pushed w ++ ["Векторизация маски..."]) (progress w) in
    match gdal_polygonize (INPUT params) with
    | inl e => (inl e, w0)
    | inr vectorized =>
        let w1 := mk_world (outputs w0)
                    (pushed w0 ++ [" Фильтрация водных объектов..."])
                    (progress w0) in
        match extractbyattribute vectorized "DN" 1 with
        | inl e => (inl e, w1)
        | inr only_water =>
            let flds := output_fields only_water in
            let w2 :=
              mk_world
                (<[out := mk_layer flds (wkbType only_water)
                                   (sourceCrs only_water) []]> (outputs w1))
                (pushed w1 ++
                   [" Расчёт геометрических характеристик и классификация..."])
                (progress w1) in
            match loop distance isC flds out (featureCount only_water) 0
                       (features only_water) w2 with
            | (inl e, w3) => (inl e, w3)
            | (inr _, w3) =>
                (inr out,
                 mk_world (outputs w3)
                          (pushed w3 ++ [" Готово! Классификация завершена."])
                          (progress w3))
            end
        end
    end.
Proof.
  unfold processAlgorithm.
  unfold mbind, M_bind, lift, remove_if_exists, pushInfo, parameterAsSink, modify.
  cbv zeta.
  destruct (gdal_polygonize (INPUT params)) as [e|vectorized]; [reflexivity|].
  destruct (extractbyattribute vectorized "DN" 1) as [e|only_water];
    [reflexivity|].
  unfold mbind, M_bind, mret, M_ret. cbv beta iota.
  fold (output_fields only_water).
  destruct (loop _ _ _ _ _ _ _ _) as [[e|[]] w3]; reflexivity.
Qed.

Lemma extractbyattribute_of_index vectorized k :
  field_index (layer_fields vectorized) "DN" = Some k ->
  extractbyattribute vectorized "DN" 1 =
    inr (mk_layer (layer_fields vectorized) (wkbType vectorized)
                  (sourceCrs vectorized)
                  (List.filter (has_value k 1) (features vectorized))).
Proof. unfold extractbyattribute. intros ->. reflexivity. Qed.

(** A run whose polygonization returns, whose layer has the field [DN] and
    whose water polygons can all be measured: it returns, and the output
    layer holds the features built for the polygons reached before a
    cancellation. *)
Lemma classifier_run isC params w vectorized k gs :
  gdal_polygonize (INPUT params) = inr vectorized ->
  field_index (layer_fields vectorized) "DN" = Some k ->
  let retained := List.filter (has_value k 1) (features vectorized) in
  let only_water := mk_layer (layer_fields vectorized) (wkbType vectorized)
                             (sourceCrs vectorized) retained in
  Forall2 (fun f g => classified distance (output_fields only_water) f = inr g)
          retained gs ->
  exists w',
    processAlgorithm gdal_polygonize distance isC params w
      = (inr (OUTPUT params), w') /\
    outputs w' !! OUTPUT params =
      Some (mk_layer (output_fields only_water) (wkbType vectorized)
                     (sourceCrs vectorized)
                     (take (iterations isC 0 (List.length retained)) gs)).
Proof.
  intros Hpoly Hk retained only_water Hgs.
  rewrite processAlgorithm_steps. cbv zeta.
  rewrite Hpoly, (extractbyattribute_of_index vectorized k Hk).
  fold retained. fold only_water.
  set (w2 := mk_world _ _ _).
  assert (Hl : outputs w2 !! OUTPUT params =
               Some (mk_layer (output_fields only_water) (wkbType only_water)
                              (sourceCrs only_water) []))
    by apply lookup_insert_eq.
  assert (Htotal : features only_water = [] \/ featureCount only_water <> 0%nat).
  { unfold featureCount. destruct (features only_water); [now left | now right]. }
  destruct (loop_run isC (output_fields only_water) (OUTPUT params)
              (featureCount only_water) (features only_water) gs Hgs
              0%nat w2 _ Htotal Hl)
    as (w3 & Hrun & Hout & _ & _).
  rewrite Hrun. eexists. split; [reflexivity|].
  simpl. exact Hout.
Qed.

(** A run that is never cancelled and returns: every step before the loop
    returned, and every water polygon was measured. *)
Lemma classifier_inr_inv isC params w d w' :
  (forall i, isC i = false) ->
  processAlgorithm gdal_polygonize distance isC params w = (inr d, w') ->
  exists vectorized k gs,
    d = OUTPUT params /\
    gdal_polygonize (INPUT params) = inr vectorized /\
    field_index (layer_fields vectorized) "DN" = Some k /\
    Forall2 (fun f g =>
               classified distance
                 (output_fields
                    (mk_layer (layer_fields vectorized) (wkbType vectorized)
                       (sourceCrs vectorized)
                       (List.filter (has_value k 1) (features vectorized))))
                 f = inr g)
            (List.filter (has_value k 1) (features vectorized)) gs.
Proof.
  intros HisC Hrun.
  rewrite processAlgorithm_steps in Hrun. cbv zeta in Hrun.
  destruct (gdal_polygonize (INPUT params)) as [e|vectorized];
    [discriminate Hrun|].
  destruct (extractbyattribute vectorized "DN" 1) as [e|only_water] eqn:Hex;
    [discriminate Hrun|].
  destruct (extractbyattribute_inr _ _ Hex) as (k & Hk & ->).
  destruct (loop _ _ _ _ _ _ _ _) as [[e|[]] w3] eqn:Hloop; [discriminate Hrun|].
  injection Hrun as <- _.
  apply loop_inr_inv in Hloop; [|intros; apply HisC].
  destruct Hloop as [(gs & Hgs) _].
  exists vectorized, k, gs. repeat split; [exact Hk | exact Hgs].
Qed.

(** *** Labels *)

Lemma classify_label (a e m : Q) :
  classify a e m = River \/ classify a e m = Lake \/ classify a e m = Creek \/
  classify a e m = Pond \/ classify a e m = Generic.
Proof.
  unfold classify.
  repeat match goal with |- context [if ?b then _ else _] => destruct b end;
    tauto.
Qed.

Lemma one_label g a e m :
  last (attributes g) = Some (VString (classify a e m)) ->
  (count_label River [g] + count_label Lake [g] + count_label Creek [g] +
   count_label Pond [g] + count_label Generic [g] = 1)%nat.
Proof.
  intros H. unfold count_label, has_label. simpl. rewrite H.
  destruct (classify_label a e m) as [-> | [-> | [-> | [-> | ->]]]];
    vm_compute; reflexivity.
Qed.

Lemma count_label_cons cls g gs :
  count_label cls (g :: gs) = (count_label cls [g] + count_label cls gs)%nat.
Proof.
  unfold count_label. simpl. destruct (has_label cls g); reflexivity.
Qed.

Lemma labels_partition gs :
  Forall (fun g => exists a e m,
            last (attributes g) = Some (VString (classify a e m))) gs ->
  (count_label River gs + count_label Lake gs + count_label Creek gs +
   count_label Pond gs + count_label Generic gs = List.length gs)%nat.
Proof.
  induction 1 as [|g gs (a & e & m & Hg) _ IH]; [reflexivity|].
  pose proof (one_label g a e m Hg) as H1.
  rewrite !(count_label_cons _ g gs). simpl List.length. lia.
Qed.

Lemma derived_of_built flds geom attrs (a b c d e : QVariant) :
  derived_attributes (mk_feature flds geom (attrs ++ [a; b; c; d; e])) =
    [a; b; c; d; e].
Proof.
  unfold derived_attributes. simpl attributes.
  rewrite length_app. simpl List.length.
  replace (List.length attrs + 5 - 5)%nat with (List.length attrs) by lia.
  apply drop_app_length.
Qed.

(** A polygon whose bounding rectangle, when there is a valid one, has a
    ring of five points can be measured; when all water polygons can, the
    run returns. *)
Lemma measure_returns flds f :
  (forall rect,
     QgsGeometry.orientedMinimumBoundingBox (geometry f) = Some rect ->
     QgsGeometry.isGeosValid rect = true ->
     exists ring, QgsGeometry.asPolygon rect !! 0%nat = Some ring /\
                  (5 <= List.length ring)%nat) ->
  exists g, classified distance flds f = inr g.
Proof.
  intros Hrect.
  pose proof (elongation_main_axis_cases (geometry f)) as Hcases.
  destruct (QgsGeometry.orientedMinimumBoundingBox (geometry f)) as [rect|].
  2: { eexists. apply classified_of_measure, Hcases. }
  destruct (QgsGeometry.isGeosValid rect) eqn:Hvalid.
  2: { eexists. apply classified_of_measure, Hcases. }
  destruct (Hrect rect eq_refl Hvalid) as (ring & Hring & Hlen).
  unfold item in Hcases. rewrite Hring in Hcases.
  destruct ring as [|p0 [|p1 [|p2 [|p3 [|p4 rest]]]]]; simpl in Hlen; try lia.
  rewrite side_lengths_rect in Hcases.
  destruct Hcases as (s0 & s1 & s2 & s3 & _ & Hm).
  eexists. apply classified_of_measure, Hm.
Qed.

Lemma classifier_returns isC params w vectorized k :
  gdal_polygonize (INPUT params) = inr vectorized ->
  field_index (layer_fields vectorized) "DN" = Some k ->
  Forall (fun f =>
            forall rect,
              QgsGeometry.orientedMinimumBoundingBox (geometry f) = Some rect ->
              QgsGeometry.isGeosValid rect = true ->
              exists ring, QgsGeometry.asPolygon rect !! 0%nat = Some ring /\
                           (5 <= List.length ring)%nat)
         (List.filter (has_value k 1) (features vectorized)) ->
  exists w',
    processAlgorithm gdal_polygonize distance isC params w
      = (inr (OUTPUT params), w').
Proof.
  intros Hpoly Hk Hall.
  set (only_water := mk_layer (layer_fields vectorized) (wkbType vectorized)
                       (sourceCrs vectorized)
                       (List.filter (has_value k 1) (features vectorized))).
  assert (Hgs : exists gs,
            Forall2 (fun f g =>
                       classified distance (output_fields only_water) f = inr g)
                    (List.filter (has_value k 1) (features vectorized)) gs).
  { induction Hall as [|f fs Hf _ (gs & Hgs)].
    - exists []. constructor.
    - destruct (measure_returns (output_fields only_water) f Hf) as (g & Hg).
      exists (g :: gs). constructor; assumption. }
  destruct Hgs as (gs & Hgs).
  destruct (classifier_run isC params w vectorized k gs Hpoly Hk Hgs)
    as (w' & Hrun & _).
  exists w'. exact Hrun.
Qed.

(** C7. A run that is not cancelled and returns has one output feature for
    each polygon of the polygonized layer with [DN = 1], in their order:
    the geometry is that of the polygon, the attributes are the polygon's
    followed by the five derived ones, and the counts of the five labels
    add up to the number of these polygons. *)
Theorem one_feature_per_water_polygon isC params w d w' :
  (forall i, isC i = false) ->
  processAlgorithm gdal_polygonize distance isC params w = (inr d, w') ->
  exists vectorized k out,
    gdal_polygonize (INPUT params) = inr vectorized /\
    field_index (layer_fields vectorized) "DN" = Some k /\
    outputs w' !! d = Some out /\
    let retained := List.filter (has_value k 1) (features vectorized) in
    List.length (features out) = List.length retained /\
    Forall2 (fun f g =>
               geometry g = geometry f /\
               exists derived, attributes g = attributes f ++ derived /\
                               List.length derived = 5%nat)
            retained (features out) /\
    (count_label River (features out) + count_label Lake (features out) +
     count_label Creek (features out) + count_label Pond (features out) +
     count_label Generic (features out) = List.length retained)%nat.
Proof.
  intros HisC Hrun.
  destruct (classifier_inr_inv isC params w d w' HisC Hrun)
    as (vectorized & k & gs & -> & Hpoly & Hk & Hgs).
  destruct (classifier_run isC params w vectorized k gs Hpoly Hk Hgs)
    as (w'' & Hrun' & Hout).
  assert (w'' = w') as -> by congruence.
  pose proof (Forall2_length _ _ _ Hgs) as Hlen.
  rewrite iterations_all in Hout by (intros; apply HisC).
  rewrite Hlen, firstn_all in Hout.
  eexists vectorized, k, _. split; [exact Hpoly|]. split; [exact Hk|].
  split; [exact Hout|]. cbv zeta. simpl features.
  split; [symmetry; exact Hlen|]. split.
  - eapply Forall2_impl; [exact Hgs|].
    intros f g Hg. apply classified_inr in Hg as (e & m & _ & ->).
    split; [reflexivity|]. eexists. split; reflexivity.
  - rewrite Hlen. apply labels_partition.
    apply List.Forall_forall. intros g Hin.
    apply list_elem_of_In in Hin.
    destruct (proj1 (list_elem_of_lookup _ _) Hin) as (n & Hn).
    destruct (Forall2_lookup_r _ _ _ _ _ Hgs Hn) as (f & _ & Hg).
    apply classified_inr in Hg as (e & m & _ & ->).
    eexists _, e, m. simpl. apply last_derived.
Qed.

(** C9. If the feedback object answers at the start of some iteration that
    the run is cancelled, the output is the features of the not-cancelled
    run before the first such iteration, in order and as built there: fewer
    than all of them, none changed, repeated or out of place. *)
Theorem cancellation_yields_prefix isC params w d w_full full k :
  processAlgorithm gdal_polygonize distance (fun _ => false) params w
    = (inr d, w_full) ->
  outputs w_full !! d = Some full ->
  (k < List.length (features full))%nat ->
  isC k = true ->
  exists w_c part j,
    processAlgorithm gdal_polygonize distance isC params w = (inr d, w_c) /\
    outputs w_c !! d = Some part /\
    (j <= k)%nat /\ isC j = true /\
    (forall i, (i < j)%nat -> isC i = false) /\
    features part = take j (features full) /\
    (List.length (features part) < List.length (features full))%nat /\
    layer_fields part = layer_fields full.
Proof.
  intros Hfull Hout_full Hk Hcancel.
  destruct (classifier_inr_inv _ params w d w_full (fun _ => eq_refl) Hfull)
    as (vectorized & k0 & gs & -> & Hpoly & Hk0 & Hgs).
  pose proof (Forall2_length _ _ _ Hgs) as Hlen.
  destruct (classifier_run (fun _ => false) params w vectorized k0 gs
              Hpoly Hk0 Hgs) as (w1 & Hrun1 & Hout1).
  assert (w1 = w_full) as -> by congruence.
  rewrite iterations_all in Hout1 by reflexivity.
  rewrite Hlen, firstn_all, Hout_full in Hout1. injection Hout1 as ->.
  simpl in Hk |- *.
  destruct (classifier_run isC params w vectorized k0 gs Hpoly Hk0 Hgs)
    as (w_c & Hrun_c & Hout_c).
  rewrite Hlen in Hout_c.
  destruct (iterations_first isC (List.length gs) 0%nat k Hk Hcancel)
    as (Hle & Htrue & Hfalse).
  eexists w_c, _, (iterations isC 0 (List.length gs)).
  split; [exact Hrun_c|]. split; [exact Hout_c|].
  split; [exact Hle|]. split; [exact Htrue|]. split; [exact Hfalse|].
  simpl. split; [reflexivity|]. split; [|reflexivity].
  rewrite length_take. lia.
Qed.

(** C10. Every feature in the output of a run, however the run ends,
    carries an elongation of at least 1 and a main axis of at least 0: they
    are the measurement of the polygon the feature was built from. *)
Theorem emitted_features_bounds isC params w r w' out :
  (forall p q, (0 <= distance p q)%Q) ->
  processAlgorithm gdal_polygonize distance isC params w = (r, w') ->
  outputs w' !! OUTPUT params = Some out ->
  Forall (fun g =>
            exists f a p e m cls,
              geometry g = geometry f /\
              elongation_main_axis distance (geometry f) = inr (e, m) /\
              derived_attributes g =
                [VDouble a; VDouble p; VDouble e; VDouble m; VString cls] /\
              (1 <= e)%Q /\ (0 <= m)%Q)
         (features out).
Proof.
  intros Hdist Hrun Hout.
  rewrite processAlgorithm_steps in Hrun. cbv zeta in Hrun.
  destruct (gdal_polygonize (INPUT params)) as [e|vectorized].
  { injection Hrun as <- <-. simpl in Hout.
    rewrite lookup_delete_eq in Hout. discriminate Hout. }
  destruct (extractbyattribute vectorized "DN" 1) as [e|only_water].
  { injection Hrun as <- <-. simpl in Hout.
    rewrite lookup_delete_eq in Hout. discriminate Hout. }
  destruct (loop _ _ _ _ _ _ _ _) as [r3 w3] eqn:Hloop.
  eapply loop_emits in Hloop; [|apply lookup_insert_eq].
  destruct Hloop as (gs & Hgs_out & Hgs).
  assert (Hout3 : outputs w3 !! OUTPUT params = Some out).
  { destruct r3 as [e|[]]; injection Hrun as <- <-; exact Hout. }
  rewrite Hgs_out in Hout3. injection Hout3 as <-. simpl.
  eapply Forall_impl; [exact Hgs|].
  intros g (f & _ & Hg).
  apply classified_inr in Hg as (e & m & Hm & ->).
  destruct (measure_bounds Hdist _ _ _ Hm) as [He Hmain].
  eexists f, _, _, e, m, _.
  split; [reflexivity|]. split; [exact Hm|].
  split; [apply derived_of_built|]. split; assumption.
Qed.

End ClassifierProperties.

(** ** The classifier on the sample layer *)

Section ClassifierRuns.
Import WaterObjectClassification WaterSamples.

Lemma axis_distance_nonneg p q : (0 <= axis_distance p q)%Q.
Proof.
  unfold axis_distance.
  pose proof (Qabs_nonneg (x p - x q)).
  pose proof (Qabs_nonneg (y p - y q)).
  lra.
Qed.

Lemma full_run_returns : full_run = (inr "water.gpkg", snd full_run).
Proof. vm_compute. reflexivity. Qed.

Lemma full_run_output :
  outputs (snd full_run) !! "water.gpkg" = Some (output_of full_run).
Proof. vm_compute. reflexivity. Qed.

Lemma one_feature_per_water_polygon_witness :
  (forall i, never i = false) /\
  processAlgorithm polygonize axis_distance never mask_to_layer start
    = (inr "water.gpkg", snd full_run) /\
  exists vectorized k out,
    polygonize (INPUT mask_to_layer) = inr vectorized /\
    field_index (layer_fields vectorized) "DN" = Some k /\
    outputs (snd full_run) !! "water.gpkg" = Some out /\
    let retained := List.filter (has_value k 1) (features vectorized) in
    List.length (features out) = List.length retained /\
    Forall2 (fun f g =>
               geometry g = geometry f /\
               exists derived, attributes g = attributes f ++ derived /\
                               List.length derived = 5%nat)
            retained (features out) /\
    (count_label River (features out) + count_label Lake (features out) +
     count_label Creek (features out) + count_label Pond (features out) +
     count_label Generic (features out) = List.length retained)%nat.
Proof.
  assert (Hnever : forall i, never i = false) by reflexivity.
  split; [exact Hnever|]. split; [exact full_run_returns|].
  exact (one_feature_per_water_polygon polygonize axis_distance never
           mask_to_layer start "water.gpkg" (snd full_run)
           Hnever full_run_returns).
Defined.

Lemma cancellation_yields_prefix_witness :
  processAlgorithm polygonize axis_distance (fun _ => false) mask_to_layer start
    = (inr "water.gpkg", snd full_run) /\
  outputs (snd full_run) !! "water.gpkg" = Some (output_of full_run) /\
  (2 < List.length (features (output_of full_run)))%nat /\
  at_third 2 = true /\
  exists w_c part j,
    processAlgorithm polygonize axis_distance at_third mask_to_layer start
      = (inr "water.gpkg", w_c) /\
    outputs w_c !! "water.gpkg" = Some part /\
    (j <= 2)%nat /\ at_third j = true /\
    (forall i, (i < j)%nat -> at_third i = false) /\
    features part = take j (features (output_of full_run)) /\
    (List.length (features part)
       < List.length (features (output_of full_run)))%nat /\
    layer_fields part = layer_fields (output_of full_run).
Proof.
  assert (Hlen : (2 < List.length (features (output_of full_run)))%nat)
    by (vm_compute; lia).
  assert (Hcancel : at_third 2 = true) by reflexivity.
  split; [exact full_run_returns|]. split; [exact full_run_output|].
  split; [exact Hlen|]. split; [exact Hcancel|].
  exact (cancellation_yields_prefix polygonize axis_distance at_third
           mask_to_layer start "water.gpkg" (snd full_run)
           (output_of full_run) 2%nat
           full_run_returns full_run_output Hlen Hcancel).
Defined.

Lemma emitted_features_bounds_witness :
  (forall p q, (0 <= axis_distance p q)%Q) /\
  processAlgorithm polygonize axis_distance never mask_to_layer start
    = (inr "water.gpkg", snd full_run) /\
  outputs (snd full_run) !! OUTPUT mask_to_layer = Some (output_of full_run) /\
  Forall (fun g =>
            exists f a p e m cls,
              geometry g = geometry f /\
              elongation_main_axis axis_distance (geometry f) = inr (e, m) /\
              derived_attributes g =
                [VDouble a; VDouble p; VDouble e; VDouble m; VString cls] /\
              (1 <= e)%Q /\ (0 <= m)%Q)
         (features (output_of full_run)).
Proof.
  split; [exact axis_distance_nonneg|]. split; [exact full_run_returns|].
  split; [exact full_run_output|].
  exact (emitted_features_bounds polygonize axis_distance never mask_to_layer
           start (inr "water.gpkg") (snd full_run) (output_of full_run)
           axis_distance_nonneg full_run_returns full_run_output).
Defined.

End ClassifierRuns.

(** * Further properties of the segmenter *)

Section SegmenterCoverage.
Import OtsuWaterMask.

Variable np : arithmetic.
Variable otsu : list Z -> Z.
Variable nan8 : sample -> Z.

Lemma unopened_input_fails_aux params w :
  files w !! INPUT params = None ->
  processAlgorithm np otsu nan8 params w = (inl AttributeError, w).
Proof.
  intros Hnone. unfold processAlgorithm, gdal_Open.
  unfold mbind, M_bind, get at 1. rewrite Hnone. reflexivity.
Qed.


(** A run that returns has opened its input and found valid samples. *)
Lemma processAlgorithm_inr_inv params w path w' :
  processAlgorithm np otsu nan8 params w = (inr path, w') ->
  exists ds mn mx,
    files w !! INPUT params = Some ds /\
    np_min (valid_samples ds) = inr mn /\
    np_max (valid_samples ds) = inr mx /\
    path = OUTPUT params /\
    w' = mk_world
           (<[OUTPUT params :=
                mk_dataset
                  (ByteBand
                     (amap (mask_cell (ds_nodata ds)
                              (otsu_value np otsu nan8 mn mx (valid_samples ds)))
                           (ReadAsArray (ds_band ds))))
                  (Some (Fin 0)) (ds_geotransform ds) (ds_projection ds)]>
              (files w))
           (pushed w ++
              [(" Порог Отсу: ",
                otsu_value np otsu nan8 mn mx (valid_samples ds))]).
Proof.
  intros Hrun.
  destruct (files w !! INPUT params) as [ds|] eqn:Hopen.
  2: { rewrite (unopened_input_fails_aux params w Hopen) in Hrun. discriminate Hrun. }
  rewrite (processAlgorithm_run np otsu nan8 params w ds Hopen) in Hrun.
  destruct (valid_samples ds) as [|c vs] eqn:Hvs; [discriminate Hrun|].
  assert (Hne : valid_samples ds <> []) by (rewrite Hvs; discriminate).
  rewrite <- Hvs in Hrun.
  destruct (np_min_inr _ Hne) as (mn & Hmin).
  destruct (np_max_inr _ Hne) as (mx & Hmax).
  rewrite Hmin, Hmax in Hrun. cbv zeta in Hrun.
  injection Hrun as <- <-.
  exists ds, mn, mx. repeat split; assumption.
Qed.

(** X2. A run that returns has written, at the output path and nowhere
    else, a byte band of the input's shape whose cells are all 0 or 1 and
    whose no-data value is 0, and has reported exactly one message. *)
Theorem written_mask_is_binary params w path w' :
  processAlgorithm np otsu nan8 params w = (inr path, w') ->
  path = OUTPUT params /\
  (forall p, p <> OUTPUT params -> files w' !! p = files w !! p) /\
  (exists msg, pushed w' = pushed w ++ [msg]) /\
  exists ds out mask,
    files w !! INPUT params = Some ds /\
    files w' !! OUTPUT params = Some out /\
    ds_band out = ByteBand mask /\
    ds_nodata out = Some (Fin 0) /\
    shape mask = shape (ReadAsArray (ds_band ds)) /\
    List.length (flat mask) = List.length (flat (ReadAsArray (ds_band ds))) /\
    Forall (fun z => z = 0 \/ z = 1) (flat mask).
Proof.
  intros Hrun.
  destruct (processAlgorithm_inr_inv params w path w' Hrun)
    as (ds & mn & mx & Hopen & _ & _ & -> & ->).
  split; [reflexivity|]. split.
  { intros p Hp. simpl. apply lookup_insert_ne. congruence. }
  split; [eexists; reflexivity|].
  eexists ds, _, _. split; [exact Hopen|].
  split; [apply lookup_insert_eq|].
  split; [reflexivity|]. split; [reflexivity|]. split; [reflexivity|].
  simpl. split; [apply length_map|].
  apply List.Forall_forall. intros z Hz.
  apply List.in_map_iff in Hz as (c & <- & _).
  unfold mask_cell. destruct (_ && _); [right | left]; reflexivity.
Qed.

(** X3. When the arithmetic of line 53 is in order between the bounds (the
    computed range is finite and positive, nothing overflows or wraps), the
    scaling sends the minimum to 0 and the maximum to 255, and keeps the
    order of the samples. *)
Theorem scaling_spans_the_range (mn mx d : Q) :
  scaling_in_order np mn mx d ->
  scale np nan8 (Fin mn) (Fin mx) (Fin mn) = 0 /\
  scale np nan8 (Fin mn) (Fin mx) (Fin mx) = 255 /\
  forall u v, (mn <= u)%Q -> (u <= v)%Q -> (v <= mx)%Q ->
    scale np nan8 (Fin mn) (Fin mx) (Fin u) <= scale np nan8 (Fin mn) (Fin mx) (Fin v).
Proof.
  intros Hord.
  destruct (scaled_value_ends np mn mx d Hord)
    as ((x0 & H0 & E0) & (x1 & H1 & E1)).
  split; [|split].
  - unfold scale. rewrite H0.
    destruct (astype_uint8_in_range nan8 x0) as [E _]; [lra | lra|].
    rewrite E, E0. reflexivity.
  - unfold scale. rewrite H1.
    destruct (astype_uint8_in_range nan8 x1) as [E _]; [lra | lra|].
    rewrite E, E1. reflexivity.
  - intros u v Hu Huv Hv.
    destruct (scaled_value_in_order np mn mx d u Hord)
      as (_ & _ & xu & _ & _ & _ & _ & _ & _ & _ & U0 & U1 & Su); [lra | lra|].
    destruct (scaled_value_in_order np mn mx d v Hord)
      as (_ & _ & xv & _ & _ & _ & _ & _ & _ & _ & V0 & V1 & Sv); [lra | lra|].
    unfold scale. rewrite Su, Sv.
    destruct (astype_uint8_in_range nan8 xu U0 U1) as [Eu _].
    destruct (astype_uint8_in_range nan8 xv V0 V1) as [Ev _].
    rewrite Eu, Ev. apply Qfloor_resp_le.
    exact (scaled_value_monotone np mn mx d u v xu xv Hord Hu Huv Hv Su Sv).
Qed.

(** X4. When the valid samples are finite and not all equal, the
    arithmetic of lines 53 and 57 is in order between their bounds, the
    value computed for [min + (max - min)] is at most [max], and the Otsu
    primitive answers a bin of the 8-bit histogram, the mask is not empty:
    every valid cell that holds the maximum of the valid samples is 1, and
    there is such a cell. *)
Theorem maximum_is_foreground params w ds mn mx d u :
  files w !! INPUT params = Some ds ->
  Forall (fun c => isfinite c = true) (valid_samples ds) ->
  np_min (valid_samples ds) = inr (Fin mn) ->
  np_max (valid_samples ds) = inr (Fin mx) ->
  scaling_in_order np mn mx d ->
  mapping_in_order np mn d u ->
  (u <= mx)%Q ->
  (forall l, l <> [] -> Forall (fun z => 0 <= z <= 255) l ->
             0 <= otsu l <= 255) ->
  let arr := ReadAsArray (ds_band ds) in
  exists out mask w',
    processAlgorithm np otsu nan8 params w = (inr (OUTPUT params), w') /\
    files w' !! OUTPUT params = Some out /\
    ds_band out = ByteBand mask /\
    (forall n q, flat arr !! n = Some (Fin q) ->
       is_valid (ds_nodata ds) (Fin q) = true -> (mx <= q)%Q ->
       flat mask !! n = Some 1) /\
    exists n, flat arr !! n = Some (Fin mx) /\ flat mask !! n = Some 1.
Proof.
  intros Hopen Hfin Hmin Hmax Hord Hmap Hu Hotsu arr.
  set (t := split_point np otsu nan8 (Fin mn) (Fin mx) (valid_samples ds)).
  assert (Ht : 0 <= t <= 255).
  { apply Hotsu.
    - destruct (valid_samples ds); [discriminate Hmin | discriminate].
    - apply List.Forall_forall. intros z Hz.
      apply List.in_map_iff in Hz as (c & <- & Hc).
      destruct (valid_sample_scaled np nan8 ds mn mx d Hfin Hmin Hmax Hord c Hc)
        as (v & x & _ & _ & _ & _ & _ & _ & _ & R).
      exact R. }
  assert (Hd : r_sub np (mx - mn)%Q = Fin d) by apply Hord.
  assert (Hpos : (0 < d)%Q) by apply Hord.
  destruct (otsu_value_in_order np mn mx d u t Hd (Qlt_le_weak _ _ Hpos) Hmap Ht)
    as (q & p & thr & _ & _ & _ & _ & _ & _ & _ & _ & T1 & Hval).
  pose proof (processAlgorithm_run np otsu nan8 params w ds Hopen) as Hrun.
  rewrite Hmin, Hmax in Hrun. cbv zeta in Hrun.
  unfold otsu_value in Hrun. fold t in Hrun. rewrite Hval in Hrun.
  assert (Hfore : forall n q, flat arr !! n = Some (Fin q) ->
            is_valid (ds_nodata ds) (Fin q) = true -> (mx <= q)%Q ->
            flat (amap (mask_cell (ds_nodata ds) (Fin thr)) arr) !! n = Some 1).
  { intros n q' Hn Hv Hq. simpl. rewrite list_lookup_fmap, Hn. simpl. f_equal.
    unfold mask_cell. rewrite Hv. simpl.
    assert (Hb : Qle_bool thr q' = true) by (apply Qle_bool_iff; lra).
    rewrite Hb. reflexivity. }
  do 3 eexists. split; [exact Hrun|].
  split; [apply lookup_insert_eq|]. split; [reflexivity|].
  split; [exact Hfore|].
  destruct (finite_samples_bounds _ mn mx Hfin Hmin Hmax) as (_ & Hmx & _).
  apply List.filter_In in Hmx as [Hin Hv].
  apply list_elem_of_In in Hin.
  destruct (proj1 (list_elem_of_lookup _ _) Hin) as (n & Hn).
  exists n. split; [exact Hn|]. apply (Hfore n mx Hn Hv). lra.
Qed.

(** X5. When the output path is not the input path, running the segmenter
    again on what the first run left returns too and changes no file: the
    second mask is the first. *)
Theorem second_run_changes_no_file params w path w1 :
  INPUT params <> OUTPUT params ->
  processAlgorithm np otsu nan8 params w = (inr path, w1) ->
  exists w2,
    processAlgorithm np otsu nan8 params w1 = (inr path, w2) /\
    files w2 = files w1.
Proof.
  intros Hpaths Hrun.
  destruct (processAlgorithm_inr_inv params w path w1 Hrun)
    as (ds & mn & mx & Hopen & Hmin & Hmax & -> & ->).
  set (out := mk_dataset _ _ _ _).
  set (w1 := mk_world _ _).
  assert (Hopen1 : files w1 !! INPUT params = Some ds).
  { simpl. rewrite lookup_insert_ne by congruence. exact Hopen. }
  pose proof (processAlgorithm_run np otsu nan8 params w1 ds Hopen1) as Hrun1.
  rewrite Hmin, Hmax in Hrun1. cbv zeta in Hrun1.
  eexists. split; [exact Hrun1|].
  simpl. fold out. apply insert_insert_eq.
Qed.

(** X6. The segmenter reproduces its own masks: on a byte raster of zeros
    and ones with the no-data value 0 and at least one cell at 1, it reports
    the threshold 1 and writes the very dataset it read. The arithmetic is
    any that computes line 57 on this field, of constant value 1, in order:
    [1 - 1] as 0, [threshold / 255.0] as a finite value, its product with 0
    as 0 and [1 + 0] as 1. *)
Theorem mask_is_reproduced params w a gt proj :
  let ds := mk_dataset (ByteBand a) (Some (Fin 0)) gt proj in
  files w !! INPUT params = Some ds ->
  Forall (fun z => z = 0 \/ z = 1) (flat a) ->
  In 1 (flat a) ->
  constant_in_order np
    (split_point np otsu nan8 (Fin 1) (Fin 1) (valid_samples ds)) 1 ->
  exists thr w',
    processAlgorithm np otsu nan8 params w = (inr (OUTPUT params), w') /\
    reported w' = Some (Fin thr) /\ (thr == 1)%Q /\
    files w' !! OUTPUT params = Some ds.
Proof.
  intros ds Hopen Hbin Hone Hord.
  assert (Hones : forall c, In c (valid_samples ds) -> c = Fin 1).
  { intros c Hc. apply List.filter_In in Hc as [Hin Hv].
    simpl in Hin. apply List.in_map_iff in Hin as (z & <- & Hz).
    rewrite List.Forall_forall in Hbin.
    destruct (Hbin z Hz) as [-> | ->]; [discriminate Hv | reflexivity]. }
  assert (Hin1 : In (Fin 1) (valid_samples ds)).
  { apply List.filter_In. split; [|reflexivity].
    simpl. apply List.in_map_iff. exists 1. split; [reflexivity | exact Hone]. }
  assert (Hne : valid_samples ds <> []).
  { intros E. rewrite E in Hin1. exact Hin1. }
  assert (Hfin : Forall (fun c => isfinite c = true) (valid_samples ds)).
  { apply List.Forall_forall. intros c Hc. rewrite (Hones c Hc). reflexivity. }
  destruct (np_min_spec _ Hfin Hne) as (mn & Hmin & Hmn & _).
  destruct (np_max_spec _ Hfin Hne) as (mx & Hmax & Hmx & _).
  apply Hones in Hmn. injection Hmn as ->.
  apply Hones in Hmx. injection Hmx as ->.
  destruct (constant_field_run np otsu nan8 params w ds 1 1 Hopen Hfin Hmin Hmax
              (Qeq_refl 1) Hord) as (thr & Ethr & Hrun).
  assert (Hband : amap (fun c => if is_valid (ds_nodata ds) c then 1 else 0)
                    (ReadAsArray (ds_band ds)) = a).
  { assert (Hmap : forall l, Forall (fun z => z = 0 \/ z = 1) l ->
              map (fun z => if is_valid (Some (Fin 0)) (Fin (inject_Z z))
                            then 1 else 0) l = l).
    { intros l Hl. induction Hl as [|z l Hz _ IH]; [reflexivity|].
      simpl. f_equal; [|exact IH].
      destruct Hz as [-> | ->]; reflexivity. }
    clear -Hbin Hmap. destruct a as [sh fl]. unfold amap; simpl. f_equal.
    rewrite map_map. apply Hmap, Hbin. }
  rewrite Hband in Hrun.
  exists thr. eexists. split; [exact Hrun|].
  split; [unfold reported; simpl; rewrite last_snoc; reflexivity|].
  split; [exact Ethr|]. apply lookup_insert_eq.
Qed.

End SegmenterCoverage.

Section SegmenterCoverageRuns.
Import OtsuWaterMask Samples.

Lemma index_run_returns :
  processAlgorithm exact cv2.threshold_otsu (fun _ => 0) in_out (disk index_raster)
    = (inr "out.tif",
       snd (processAlgorithm exact cv2.threshold_otsu (fun _ => 0) in_out
              (disk index_raster))).
Proof. vm_compute. reflexivity. Qed.


Lemma written_mask_is_binary_witness :
  let w' := snd (processAlgorithm exact cv2.threshold_otsu (fun _ => 0) in_out
                   (disk index_raster)) in
  processAlgorithm exact cv2.threshold_otsu (fun _ => 0) in_out (disk index_raster)
    = (inr "out.tif", w') /\
  "out.tif" = OUTPUT in_out /\
  (forall p, p <> OUTPUT in_out ->
             files w' !! p = files (disk index_raster) !! p) /\
  (exists msg, pushed w' = pushed (disk index_raster) ++ [msg]) /\
  exists ds out mask,
    files (disk index_raster) !! INPUT in_out = Some ds /\
    files w' !! OUTPUT in_out = Some out /\
    ds_band out = ByteBand mask /\
    ds_nodata out = Some (Fin 0) /\
    shape mask = shape (ReadAsArray (ds_band ds)) /\
    List.length (flat mask) = List.length (flat (ReadAsArray (ds_band ds))) /\
    Forall (fun z => z = 0 \/ z = 1) (flat mask).
Proof.
  split; [exact index_run_returns|].
  exact (written_mask_is_binary exact cv2.threshold_otsu (fun _ => 0) in_out
           (disk index_raster) "out.tif" _ index_run_returns).
Defined.

Lemma scaling_spans_the_range_witness :
  scaling_in_order exact 0 300 (300 - 0) /\
  scale exact (fun _ => 0) (Fin 0) (Fin 300) (Fin 0) = 0 /\
  scale exact (fun _ => 0) (Fin 0) (Fin 300) (Fin 300) = 255 /\
  forall u v, (0 <= u)%Q -> (u <= v)%Q -> (v <= 300)%Q ->
    scale exact (fun _ => 0) (Fin 0) (Fin 300) (Fin u)
      <= scale exact (fun _ => 0) (Fin 0) (Fin 300) (Fin v).
Proof.
  assert (Hlt : (0 < 300)%Q) by reflexivity.
  split; [exact (exact_scaling_in_order 0 300 Hlt)|].
  exact (scaling_spans_the_range exact (fun _ => 0) 0 300 (300 - 0)
           (exact_scaling_in_order 0 300 Hlt)).
Defined.

Lemma maximum_is_foreground_witness :
  files (disk index_raster) !! INPUT in_out = Some index_raster /\
  Forall (fun c => isfinite c = true) (valid_samples index_raster) /\
  np_min (valid_samples index_raster) = inr (Fin 0) /\
  np_max (valid_samples index_raster) = inr (Fin 300) /\
  scaling_in_order exact 0 300 (300 - 0) /\
  mapping_in_order exact 0 (300 - 0) (0 + (300 - 0)) /\
  (0 + (300 - 0) <= 300)%Q /\
  (forall l, l <> [] -> Forall (fun z => 0 <= z <= 255) l ->
             0 <= cv2.threshold_otsu l <= 255) /\
  exists out mask w',
    processAlgorithm exact cv2.threshold_otsu (fun _ => 0) in_out (disk index_raster)
      = (inr (OUTPUT in_out), w') /\
    files w' !! OUTPUT in_out = Some out /\
    ds_band out = ByteBand mask /\
    (forall n q, flat (ReadAsArray (ds_band index_raster)) !! n = Some (Fin q) ->
       is_valid (ds_nodata index_raster) (Fin q) = true -> (300 <= q)%Q ->
       flat mask !! n = Some 1) /\
    exists n, flat (ReadAsArray (ds_band index_raster)) !! n = Some (Fin 300) /\
              flat mask !! n = Some 1.
Proof.
  assert (Hopen : files (disk index_raster) !! INPUT in_out = Some index_raster)
    by reflexivity.
  assert (Hmin : np_min (valid_samples index_raster) = inr (Fin 0))
    by reflexivity.
  assert (Hmax : np_max (valid_samples index_raster) = inr (Fin 300))
    by reflexivity.
  assert (Hlt : (0 < 300)%Q) by reflexivity.
  assert (Hu : (0 + (300 - 0) <= 300)%Q) by discriminate.
  assert (Hbin : forall l, l <> [] -> Forall (fun z => 0 <= z <= 255) l ->
                   0 <= cv2.threshold_otsu l <= 255).
  { intros l _ _. apply cv2_threshold_otsu_bin. }
  split; [exact Hopen|]. split; [exact index_raster_finite|].
  split; [exact Hmin|]. split; [exact Hmax|].
  split; [exact (exact_scaling_in_order 0 300 Hlt)|].
  split; [exact (exact_mapping_in_order 0 (300 - 0))|].
  split; [exact Hu|]. split; [exact Hbin|].
  exact (maximum_is_foreground exact cv2.threshold_otsu (fun _ => 0) in_out
           (disk index_raster) index_raster 0 300 (300 - 0) (0 + (300 - 0))
           Hopen index_raster_finite Hmin Hmax
           (exact_scaling_in_order 0 300 Hlt)
           (exact_mapping_in_order 0 (300 - 0)) Hu Hbin).
Defined.

Lemma second_run_changes_no_file_witness :
  let w1 := snd (processAlgorithm exact cv2.threshold_otsu (fun _ => 0) in_out
                   (disk index_raster)) in
  INPUT in_out <> OUTPUT in_out /\
  processAlgorithm exact cv2.threshold_otsu (fun _ => 0) in_out (disk index_raster)
    = (inr "out.tif", w1) /\
  exists w2,
    processAlgorithm exact cv2.threshold_otsu (fun _ => 0) in_out w1
      = (inr "out.tif", w2) /\
    files w2 = files w1.
Proof.
  assert (Hpaths : INPUT in_out <> OUTPUT in_out) by discriminate.
  split; [exact Hpaths|]. split; [exact index_run_returns|].
  exact (second_run_changes_no_file exact cv2.threshold_otsu (fun _ => 0) in_out
           (disk index_raster) "out.tif" _ Hpaths index_run_returns).
Defined.

Lemma mask_is_reproduced_witness :
  let a := mk_ndarray (1, 2)%nat [1; 0] in
  let ds := mk_dataset (ByteBand a) (Some (Fin 0)) gt30 "EPSG:32637" in
  files (disk ds) !! INPUT in_out = Some ds /\
  Forall (fun z => z = 0 \/ z = 1) (flat a) /\
  In 1 (flat a) /\
  constant_in_order uint8
    (split_point uint8 cv2.threshold_otsu (fun _ => 0) (Fin 1) (Fin 1)
       (valid_samples ds)) 1 /\
  exists thr w',
    processAlgorithm uint8 cv2.threshold_otsu (fun _ => 0) in_out (disk ds)
      = (inr (OUTPUT in_out), w') /\
    reported w' = Some (Fin thr) /\ (thr == 1)%Q /\
    files w' !! OUTPUT in_out = Some ds.
Proof.
  intros a ds.
  assert (Hopen : files (disk ds) !! INPUT in_out = Some ds) by reflexivity.
  assert (Hbin : Forall (fun z => z = 0 \/ z = 1) (flat a)).
  { constructor; [right; reflexivity|].
    constructor; [left; reflexivity | constructor]. }
  assert (Hone : In 1 (flat a)) by (left; reflexivity).
  split; [exact Hopen|]. split; [exact Hbin|]. split; [exact Hone|].
  split; [apply uint8_constant_in_order|].
  exact (mask_is_reproduced uint8 cv2.threshold_otsu (fun _ => 0) in_out (disk ds)
           a gt30 "EPSG:32637" Hopen Hbin Hone (uint8_constant_in_order _ 1)).
Defined.

End SegmenterCoverageRuns.

(** * Further properties of the classifier *)

Section ClassifierCoverage.
Import WaterObjectClassification.

Variable gdal_polygonize : OtsuWaterMask.dataset -> Exc QgsVectorLayer.
Variable distance : QgsPointXY -> QgsPointXY -> Q.

Lemma percent_value i total p :
  percent i total = inr p -> p = Z.quot (100 * Z.of_nat i) (Z.of_nat total).
Proof.
  unfold percent. destruct (decide (total = 0%nat)); [discriminate|].
  intros E. injection E as <-. reflexivity.
Qed.

(** Whatever the outcome, the loop changes no other destination and pushes
    no message. *)
Lemma loop_frame isC flds d total fs :
  forall i w r w',
    loop distance isC flds d total i fs w = (r, w') ->
    (forall k, k <> d -> outputs w' !! k = outputs w !! k) /\
    pushed w' = pushed w.
Proof.
  induction fs as [|f rest IH]; intros i w r w' Hrun.
  - injection Hrun as <- <-. split; reflexivity.
  - rewrite loop_cons in Hrun.
    destruct (isC i); [injection Hrun as <- <-; split; reflexivity|].
    destruct (classified distance flds f) as [e|g];
      [injection Hrun as <- <-; split; reflexivity|].
    destruct (percent i total) as [e|p].
    + injection Hrun as <- <-. split; [|reflexivity].
      intros k Hk. apply (addFeature_other d g w k Hk).
    + apply IH in Hrun as [Hother Hpushed]. split; [|exact Hpushed].
      intros k Hk. rewrite (Hother k Hk). apply (addFeature_other d g w k Hk).
Qed.

(** A loop that returns: the features it reached before a cancellation were
    all measured and appended, and one progress value was set for each. *)
Lemma loop_inr_trace isC flds d total fs :
  forall i w w' l,
    outputs w !! d = Some l ->
    loop distance isC flds d total i fs w = (inr tt, w') ->
    exists gs,
      Forall2 (fun f g => classified distance flds f = inr g)
              (take (iterations isC i (List.length fs)) fs) gs /\
      outputs w' !! d = Some (with_features l gs) /\
      progress w' =
        progress w ++
        map (fun n => Z.quot (100 * Z.of_nat n) (Z.of_nat total))
            (seq i (iterations isC i (List.length fs))) /\
      (iterations isC i (List.length fs) = 0%nat \/ total <> 0%nat).
Proof.
  induction fs as [|f rest IH]; intros i w w' l Hl Hrun.
  - injection Hrun as <-. exists []. simpl.
    rewrite with_features_nil, app_nil_r. repeat split; auto.
  - rewrite loop_cons in Hrun. simpl iterations.
    destruct (isC i).
    { injection Hrun as <-. exists []. simpl.
      rewrite with_features_nil, app_nil_r. repeat split; auto. }
    destruct (classified distance flds f) as [e|g] eqn:Hg; [discriminate Hrun|].
    destruct (percent i total) as [e|p] eqn:Hp; [discriminate Hrun|].
    pose proof (addFeature_lookup d g w l Hl) as Hl1.
    eapply IH in Hrun; [|exact Hl1].
    destruct Hrun as (gs & Hgs & Hout & Hprog & _).
    exists (g :: gs). rewrite with_features_app in Hout.
    split; [simpl; constructor; assumption|].
    split; [exact Hout|]. split.
    + rewrite Hprog. simpl. rewrite <- app_assoc. simpl.
      rewrite (percent_value i total p Hp). reflexivity.
    + right. eapply percent_inr_inv, Hp.
Qed.

(** A run that returns, cancelled or not. *)
Lemma classifier_inr_trace isC params w d w' :
  processAlgorithm gdal_polygonize distance isC params w = (inr d, w') ->
  exists vectorized k gs,
    d = OUTPUT params /\
    gdal_polygonize (INPUT params) = inr vectorized /\
    field_index (layer_fields vectorized) "DN" = Some k /\
    let retained := List.filter (has_value k 1) (features vectorized) in
    let only_water := mk_layer (layer_fields vectorized) (wkbType vectorized)
                               (sourceCrs vectorized) retained in
    let j := iterations isC 0 (List.length retained) in
    Forall2 (fun f g => classified distance (output_fields only_water) f = inr g)
            (take j retained) gs /\
    outputs w' !! OUTPUT params =
      Some (mk_layer (output_fields only_water) (wkbType vectorized)
                     (sourceCrs vectorized) gs) /\
    progress w' =
      progress w ++
      map (fun n => Z.quot (100 * Z.of_nat n) (Z.of_nat (List.length retained)))
          (seq 0 j) /\
    pushed w' =
      pushed w ++
      ["Векторизация маски..."; " Фильтрация водных объектов...";
       " Расчёт геометрических характеристик и классификация...";
       " Готово! Классификация завершена."].
Proof.
  intros Hrun.
  rewrite processAlgorithm_steps in Hrun. cbv zeta in Hrun.
  destruct (gdal_polygonize (INPUT params)) as [e|vectorized];
    [discriminate Hrun|].
  destruct (extractbyattribute vectorized "DN" 1) as [e|only_water] eqn:Hex;
    [discriminate Hrun|].
  destruct (extractbyattribute_inr _ _ Hex) as (k & Hk & ->).
  destruct (loop _ _ _ _ _ _ _ _) as [[e|[]] w3] eqn:Hloop; [discriminate Hrun|].
  injection Hrun as <- <-.
  pose proof (loop_frame _ _ _ _ _ _ _ _ _ Hloop) as [_ Hpushed].
  eapply loop_inr_trace in Hloop; [|apply lookup_insert_eq].
  destruct Hloop as (gs & Hgs & Hout & Hprog & _).
  exists vectorized, k, gs.
  split; [reflexivity|]. split; [reflexivity|]. split; [exact Hk|].
  cbv zeta. split; [exact Hgs|]. split; [exact Hout|].
  split; [exact Hprog|].
  simpl. rewrite Hpushed. simpl. rewrite <- !app_assoc. reflexivity.
Qed.

(** X7. When the polygonization raises, the run raises the same exception;
    the file that was at the output path has already been removed and no
    layer is created, so the previous output is lost. *)
Theorem failed_polygonization_removes_output isC params w e :
  gdal_polygonize (INPUT params) = inl e ->
  exists w',
    processAlgorithm gdal_polygonize distance isC params w = (inl e, w') /\
    outputs w' = delete (OUTPUT params) (outputs w) /\
    outputs w' !! OUTPUT params = None.
Proof.
  intros Hpoly. rewrite processAlgorithm_steps. cbv zeta. rewrite Hpoly.
  eexists. split; [reflexivity|]. simpl.
  split; [reflexivity | apply lookup_delete_eq].
Qed.

(** X8. When no polygon has [DN = 1] the run returns whatever the feedback
    object would answer: the loop has nothing to go through, so the division
    by the feature count, which is zero, is not reached. A layer found at
    the output path after the run has the output fields and no feature. *)
Theorem no_water_polygon_gives_empty_layer isC params w vectorized k :
  gdal_polygonize (INPUT params) = inr vectorized ->
  field_index (layer_fields vectorized) "DN" = Some k ->
  List.filter (has_value k 1) (features vectorized) = [] ->
  exists w',
    processAlgorithm gdal_polygonize distance isC params w
      = (inr (OUTPUT params), w') /\
    forall out, outputs w' !! OUTPUT params = Some out ->
      out = mk_layer
              (layer_fields vectorized ++
                 [mk_field "area_m2" TDouble; mk_field "perimeter_m" TDouble;
                  mk_field "elongation" TDouble; mk_field "main_axis" TDouble;
                  mk_field "class" TString])
              (wkbType vectorized) (sourceCrs vectorized) [].
Proof.
  intros Hpoly Hk Hnone.
  assert (Hgs : Forall2
            (fun f g =>
               classified distance
                 (output_fields
                    (mk_layer (layer_fields vectorized) (wkbType vectorized)
                       (sourceCrs vectorized)
                       (List.filter (has_value k 1) (features vectorized))))
                 f = inr g)
            (List.filter (has_value k 1) (features vectorized)) []).
  { rewrite Hnone. constructor. }
  destruct (classifier_run gdal_polygonize distance isC params w vectorized k []
              Hpoly Hk Hgs) as (w' & Hrun & Hout).
  exists w'. split; [exact Hrun|].
  intros out Hout'. rewrite Hout, take_nil in Hout'.
  injection Hout' as <-. reflexivity.
Qed.

(** X9. A run that returns, cancelled or not, ends on the message that
    announces completion: it is the last message pushed. *)
Theorem returning_run_reports_completion isC params w d w' :
  processAlgorithm gdal_polygonize distance isC params w = (inr d, w') ->
  last (pushed w') = Some " Готово! Классификация завершена.".
Proof.
  intros Hrun.
  destruct (classifier_inr_trace isC params w d w' Hrun)
    as (vectorized & k & gs & _ & _ & _ & _ & _ & _ & Hpushed).
  rewrite Hpushed.
  change (pushed w ++ _)
    with (pushed w ++
          ["Векторизация маски..."; " Фильтрация водных объектов...";
           " Расчёт геометрических характеристик и классификация..."] ++
          [" Готово! Классификация завершена."]).
  rewrite app_assoc. apply last_snoc.
Qed.

(** X10. Whatever the outcome, a run changes no destination but its own. *)
Theorem other_destinations_untouched isC params w r w' path :
  processAlgorithm gdal_polygonize distance isC params w = (r, w') ->
  path <> OUTPUT params ->
  outputs w' !! path = outputs w !! path.
Proof.
  intros Hrun Hpath.
  rewrite processAlgorithm_steps in Hrun. cbv zeta in Hrun.
  assert (Hdel : delete (OUTPUT params) (outputs w) !! path = outputs w !! path)
    by (apply lookup_delete_ne; congruence).
  destruct (gdal_polygonize (INPUT params)) as [e|vectorized].
  { injection Hrun as <- <-. exact Hdel. }
  destruct (extractbyattribute vectorized "DN" 1) as [e|only_water].
  { injection Hrun as <- <-. exact Hdel. }
  destruct (loop _ _ _ _ _ _ _ _) as [r3 w3] eqn:Hloop.
  apply loop_frame in Hloop as [Hother _].
  assert (H3 : outputs w3 !! path = outputs w !! path).
  { rewrite (Hother path Hpath). simpl.
    rewrite lookup_insert_ne by congruence. exact Hdel. }
  destruct r3 as [e|[]]; injection Hrun as <- <-; exact H3.
Qed.

Lemma iterations_le isC n : forall i, (iterations isC i n <= n)%nat.
Proof.
  induction n as [|n IH]; intros i; simpl; [lia|].
  destruct (isC i); [lia|]. specialize (IH (S i)). lia.
Qed.

(** X11. A run that returns has set, after every other progress value, one
    value for each feature it wrote: the value for the feature of index [n]
    is [int(100 * n / total)], [total] being the number of polygons with
    [DN = 1]. These values never decrease and lie between 0 and 99; when a
    feature was written the last progress value of the run is that of the
    last feature, so the progress does not reach 100. *)
Theorem progress_stays_below_100 isC params w d w' vectorized k out :
  gdal_polygonize (INPUT params) = inr vectorized ->
  field_index (layer_fields vectorized) "DN" = Some k ->
  processAlgorithm gdal_polygonize distance isC params w = (inr d, w') ->
  outputs w' !! d = Some out ->
  let total := List.length (List.filter (has_value k 1) (features vectorized)) in
  let written := List.length (features out) in
  let ps := map (fun n => Z.quot (100 * Z.of_nat n) (Z.of_nat total))
                (seq 0 written) in
  (written <= total)%nat /\
  (exists before, progress w' = before ++ ps) /\
  Forall (fun p => 0 <= p <= 99) ps /\
  (forall a b pa pb, (a <= b)%nat -> ps !! a = Some pa -> ps !! b = Some pb ->
     pa <= pb) /\
  (written <> 0%nat ->
   last (progress w')
     = Some (Z.quot (100 * (Z.of_nat written - 1)) (Z.of_nat total))).
Proof.
  intros Hpoly Hk Hrun Hout.
  destruct (classifier_inr_trace isC params w d w' Hrun)
    as (v' & k' & gs & -> & Hpoly' & Hk' & Hgs & Hout' & Hprog & _).
  assert (v' = vectorized) as -> by congruence.
  assert (k' = k) as -> by congruence.
  cbv zeta in Hgs, Hout', Hprog.
  set (retained := List.filter (has_value k 1) (features vectorized)) in *.
  set (total := List.length retained) in *.
  set (j := iterations isC 0 total) in *.
  assert (Hj : (j <= total)%nat) by apply iterations_le.
  rewrite Hout in Hout'. injection Hout' as ->. simpl.
  assert (Hlen : List.length gs = j).
  { rewrite <- (Forall2_length _ _ _ Hgs), length_take. fold total. lia. }
  rewrite Hlen.
  assert (Hlookup : forall n p,
            map (fun n => Z.quot (100 * Z.of_nat n) (Z.of_nat total)) (seq 0 j)
              !! n = Some p ->
            p = Z.quot (100 * Z.of_nat n) (Z.of_nat total) /\ (n < j)%nat).
  { intros n p Hn. rewrite list_lookup_fmap in Hn.
    destruct (seq 0 j !! n) as [m|] eqn:Hm; [|discriminate Hn].
    apply lookup_seq in Hm as [-> Hlt]. injection Hn as <-. auto. }
  split; [exact Hj|].
  split; [exists (progress w); exact Hprog|].
  split; [|split].
  - apply List.Forall_forall. intros p Hp.
    apply list_elem_of_In, list_elem_of_lookup in Hp as (n & Hn).
    destruct (Hlookup n p Hn) as [-> Hlt].
    assert (0 <= Z.quot (100 * Z.of_nat n) (Z.of_nat total))
      by (apply Z.quot_pos; lia).
    assert (Z.quot (100 * Z.of_nat n) (Z.of_nat total) < 100)
      by (apply Z.quot_lt_upper_bound; lia).
    lia.
  - intros a b pa pb Hab Ha Hb.
    destruct (Hlookup a pa Ha) as [-> _].
    destruct (Hlookup b pb Hb) as [-> Hlt].
    apply Z.quot_le_mono; lia.
  - intros Hpos. rewrite Hprog.
    destruct j as [|m]; [congruence|].
    rewrite seq_S, map_app, app_assoc. simpl.
    rewrite last_snoc. do 2 f_equal. lia.
Qed.

(** X12. The output layer has the fields of the polygonized layer followed
    by the five derived fields, and its geometry type and reference system.
    Every feature in it carries these fields, and has one attribute for each
    when the polygons had one for each field of their layer. *)
Theorem output_schema isC params w r w' out :
  processAlgorithm gdal_polygonize distance isC params w = (r, w') ->
  outputs w' !! OUTPUT params = Some out ->
  exists vectorized,
    gdal_polygonize (INPUT params) = inr vectorized /\
    layer_fields out =
      layer_fields vectorized ++
        [mk_field "area_m2" TDouble; mk_field "perimeter_m" TDouble;
         mk_field "elongation" TDouble; mk_field "main_axis" TDouble;
         mk_field "class" TString] /\
    wkbType out = wkbType vectorized /\
    sourceCrs out = sourceCrs vectorized /\
    Forall (fun g => fields g = layer_fields out) (features out) /\
    (Forall (fun f => List.length (attributes f)
                      = List.length (layer_fields vectorized))
            (features vectorized) ->
     Forall (fun g => List.length (attributes g)
                      = List.length (layer_fields out))
            (features out)).
Proof.
  intros Hrun Hout.
  rewrite processAlgorithm_steps in Hrun. cbv zeta in Hrun.
  destruct (gdal_polygonize (INPUT params)) as [e|vectorized].
  { injection Hrun as <- <-. simpl in Hout.
    rewrite lookup_delete_eq in Hout. discriminate Hout. }
  destruct (extractbyattribute vectorized "DN" 1) as [e|only_water] eqn:Hex.
  { injection Hrun as <- <-. simpl in Hout.
    rewrite lookup_delete_eq in Hout. discriminate Hout. }
  destruct (extractbyattribute_inr _ _ Hex) as (k & _ & ->).
  destruct (loop _ _ _ _ _ _ _ _) as [r3 w3] eqn:Hloop.
  eapply loop_emits in Hloop; [|apply lookup_insert_eq].
  destruct Hloop as (gs & Hgs_out & Hgs).
  assert (Hout3 : outputs w3 !! OUTPUT params = Some out).
  { destruct r3 as [e|[]]; injection Hrun as <- <-; exact Hout. }
  rewrite Hgs_out in Hout3. injection Hout3 as <-.
  exists vectorized. split; [reflexivity|]. simpl.
  split; [reflexivity|]. split; [reflexivity|]. split; [reflexivity|].
  split.
  - eapply Forall_impl; [exact Hgs|].
    intros g (f & _ & Hg). apply classified_inr in Hg as (e & m & _ & ->).
    reflexivity.
  - intros Hconform. rewrite List.Forall_forall in Hconform.
    eapply Forall_impl; [exact Hgs|].
    intros g (f & Hin & Hg). apply classified_inr in Hg as (e & m & _ & ->).
    simpl in Hin. apply List.filter_In in Hin as [Hin _].
    unfold output_fields. simpl.
    rewrite !length_app, (Hconform f Hin). reflexivity.
Qed.

Lemma classify_unmeasured (area : Q) :
  classify area 1 0 =
    if Qltb 500000 area then Lake
    else if Qltb area 10000 then Pond else Generic.
Proof.
  unfold classify.
  change (Qltb 8000 0) with false. change (Qltb 1 2) with true.
  change (Qltb 2 1) with false.
  rewrite andb_true_r, !andb_false_r. reflexivity.
Qed.

(** X13. A polygon without a bounding rectangle, or with one that is not
    valid, is labelled by its area alone: Lake above 500000, Pond below
    10000, Generic in between; it is never a River or a Creek. *)
Theorem unmeasured_polygon_label flds f :
  (QgsGeometry.orientedMinimumBoundingBox (geometry f) = None \/
   exists rect,
     QgsGeometry.orientedMinimumBoundingBox (geometry f) = Some rect /\
     QgsGeometry.isGeosValid rect = false) ->
  let area := QgsGeometry.area (geometry f) in
  exists g cls,
    classified distance flds f = inr g /\
    last (attributes g) = Some (VString cls) /\
    ((500000 < area)%Q -> cls = Lake) /\
    ((area < 10000)%Q -> cls = Pond) /\
    ((10000 <= area)%Q -> (area <= 500000)%Q -> cls = Generic) /\
    cls <> River /\ cls <> Creek.
Proof.
  intros Hrect area.
  assert (Hm : elongation_main_axis distance (geometry f) = inr (1%Q, 0%Q)).
  { pose proof (elongation_main_axis_cases distance (geometry f)) as Hcases.
    destruct Hrect as [Hnone | (rect & Hsome & Hinvalid)].
    - rewrite Hnone in Hcases. exact Hcases.
    - rewrite Hsome, Hinvalid in Hcases. exact Hcases. }
  eexists _, (classify area 1 0).
  split; [exact (classified_of_measure distance flds f _ _ Hm)|].
  split; [simpl; apply last_derived|].
  rewrite classify_unmeasured.
  destruct (Qltb 500000 area) eqn:Hlake.
  - apply Qltb_lt in Hlake.
    split; [reflexivity|]. split; [intros; lra|]. split; [intros; lra|].
    split; discriminate.
  - apply Qltb_ge in Hlake. destruct (Qltb area 10000) eqn:Hpond.
    + apply Qltb_lt in Hpond.
      split; [intros; lra|]. split; [reflexivity|]. split; [intros; lra|].
      split; discriminate.
    + apply Qltb_ge in Hpond.
      split; [intros; lra|]. split; [intros; lra|]. split; [reflexivity|].
      split; discriminate.
Qed.

(** The rule that gives the label, with the rules before it failing. *)
Lemma classify_cases (area e m : Q) :
  (classify area e m = River /\ (8000 < m)%Q /\ (3 < e)%Q) \/
  (classify area e m = Lake /\ ((m <= 8000)%Q \/ (e <= 3)%Q) /\
     (500000 < area)%Q /\ (e < 2)%Q) \/
  (classify area e m = Creek /\ ((m <= 8000)%Q \/ (e <= 3)%Q) /\
     ((area <= 500000)%Q \/ (2 <= e)%Q) /\ (area < 20000)%Q /\ (2 < e)%Q) \/
  (classify area e m = Pond /\ ((m <= 8000)%Q \/ (e <= 3)%Q) /\
     ((area <= 500000)%Q \/ (2 <= e)%Q) /\
     ((20000 <= area)%Q \/ (e <= 2)%Q) /\ (area < 10000)%Q) \/
  (classify area e m = Generic /\ ((m <= 8000)%Q \/ (e <= 3)%Q) /\
     ((area <= 500000)%Q \/ (2 <= e)%Q) /\
     ((20000 <= area)%Q \/ (e <= 2)%Q) /\ (10000 <= area)%Q).
Proof.
  assert (Hno : forall a b c d, Qltb a b && Qltb c d = false ->
                  (b <= a)%Q \/ (d <= c)%Q).
  { intros a b c d H. apply andb_false_iff in H as [H|H];
      apply Qltb_ge in H; [left | right]; exact H. }
  assert (Hyes : forall a b c d, Qltb a b && Qltb c d = true ->
                   (a < b)%Q /\ (c < d)%Q).
  { intros a b c d H. apply andb_prop in H as [H1 H2].
    split; apply Qltb_lt; assumption. }
  unfold classify.
  destruct (Qltb 8000 m && Qltb 3 e) eqn:R1.
  { left. split; [reflexivity | apply Hyes, R1]. }
  apply Hno in R1. right.
  destruct (Qltb 500000 area && Qltb e 2) eqn:R2.
  { left. split; [reflexivity|]. split; [exact R1 | apply Hyes, R2]. }
  apply Hno in R2. right.
  destruct (Qltb area 20000 && Qltb 2 e) eqn:R3.
  { left. split; [reflexivity|]. split; [exact R1|]. split; [exact R2|].
    apply Hyes, R3. }
  apply Hno in R3. right.
  destruct (Qltb area 10000) eqn:R4.
  { left. apply Qltb_lt in R4. split; [reflexivity|].
    repeat (split; [assumption|]). exact R4. }
  right. apply Qltb_ge in R4. split; [reflexivity|].
  repeat (split; [assumption|]). exact R4.
Qed.

(** X14. What each label says of a polygon, the order of the rules taken
    into account: a Lake or a Pond is recognised whatever the main axis,
    and a Pond is never elongated beyond 2. *)
Theorem label_regions (area e m : Q) :
  (classify area e m = River <-> (8000 < m)%Q /\ (3 < e)%Q) /\
  (classify area e m = Lake <-> (500000 < area)%Q /\ (e < 2)%Q) /\
  (classify area e m = Creek <->
     (area < 20000)%Q /\ (2 < e)%Q /\ ((m <= 8000)%Q \/ (e <= 3)%Q)) /\
  (classify area e m = Pond <-> (area < 10000)%Q /\ (e <= 2)%Q) /\
  (classify area e m = Generic <->
     (10000 <= area)%Q /\
     ((m <= 8000)%Q \/ (e <= 3)%Q) /\
     ((area <= 500000)%Q \/ (2 <= e)%Q) /\
     ((20000 <= area)%Q \/ (e <= 2)%Q)).
Proof.
  destruct (classify_cases area e m)
    as [(E & C) | [(E & C) | [(E & C) | [(E & C) | (E & C)]]]];
    rewrite E; unfold River, Lake, Creek, Pond, Generic;
    (split; [|split; [|split; [|split]]]);
    (split; intros H; [try discriminate H | try reflexivity]);
    intuition lra.
Qed.

(** The measurement raises only on a valid rectangle without a ring of
    five points, and then an [IndexError]. *)
Lemma side_lengths_inl ring e :
  side_lengths distance ring = inl e ->
  e = IndexError /\ (List.length ring < 5)%nat.
Proof.
  destruct ring as [|p0 [|p1 [|p2 [|p3 [|p4 rest]]]]]; intros E;
    try (injection E as <-; split; [reflexivity | simpl; lia]).
  rewrite side_lengths_rect in E. discriminate E.
Qed.

Lemma measure_inl geom e :
  elongation_main_axis distance geom = inl e ->
  e = IndexError /\
  exists rect,
    QgsGeometry.orientedMinimumBoundingBox geom = Some rect /\
    QgsGeometry.isGeosValid rect = true /\
    (QgsGeometry.asPolygon rect !! 0%nat = None \/
     exists ring, QgsGeometry.asPolygon rect !! 0%nat = Some ring /\
                  (List.length ring < 5)%nat).
Proof.
  intros Hm. pose proof (elongation_main_axis_cases distance geom) as Hcases.
  destruct (QgsGeometry.orientedMinimumBoundingBox geom) as [rect|];
    [|rewrite Hm in Hcases; discriminate Hcases].
  destruct (QgsGeometry.isGeosValid rect) eqn:Hvalid;
    [|rewrite Hm in Hcases; discriminate Hcases].
  unfold item in Hcases.
  destruct (QgsGeometry.asPolygon rect !! 0%nat) as [ring|] eqn:Hring.
  - destruct (side_lengths distance ring) as [e'|sides] eqn:Hs.
    + rewrite Hm in Hcases. injection Hcases as ->.
      destruct (side_lengths_inl ring e' Hs) as [-> Hlen].
      split; [reflexivity|]. exists rect. split; [reflexivity|].
      split; [exact Hvalid|]. right. exists ring. split; [exact Hring | exact Hlen].
    + destruct Hcases as (s0 & s1 & s2 & s3 & _ & Hm').
      cbv zeta in Hm'. rewrite Hm in Hm'. discriminate Hm'.
  - rewrite Hm in Hcases. injection Hcases as ->.
    split; [reflexivity|]. exists rect. split; [reflexivity|].
    split; [exact Hvalid|]. left. exact Hring.
Qed.

Lemma classified_inl flds f e :
  classified distance flds f = inl e ->
  elongation_main_axis distance (geometry f) = inl e.
Proof.
  unfold classified.
  destruct (elongation_main_axis distance (geometry f)) as [e'|[el ma]].
  - intros E. injection E as ->. reflexivity.
  - discriminate.
Qed.

(** A loop that raises has met a polygon it could not measure. *)
Lemma loop_inl isC flds d total fs :
  forall i w e w',
    fs = [] \/ total <> 0%nat ->
    loop distance isC flds d total i fs w = (inl e, w') ->
    exists f, In f fs /\ classified distance flds f = inl e.
Proof.
  induction fs as [|f rest IH]; intros i w e w' Htotal Hrun.
  - discriminate Hrun.
  - rewrite loop_cons in Hrun.
    destruct (isC i); [discriminate Hrun|].
    destruct (classified distance flds f) as [e'|g] eqn:Hg.
    { injection Hrun as -> _. exists f. split; [now left | exact Hg]. }
    destruct Htotal as [E|Htotal]; [discriminate E|].
    destruct (percent_inr i total Htotal) as (p & Hp). rewrite Hp in Hrun.
    apply IH in Hrun; [|now right].
    destruct Hrun as (f' & Hin & Hf'). exists f'. split; [now right | exact Hf'].
Qed.

(** Once the polygonization has returned, what a run of the algorithm as
    embedded raises. *)
Lemma raising_run_cases isC params w e w' vectorized :
  gdal_polygonize (INPUT params) = inr vectorized ->
  processAlgorithm gdal_polygonize distance isC params w = (inl e, w') ->
  (e = QgsProcessingException /\
   field_index (layer_fields vectorized) "DN" = None) \/
  (e = IndexError /\
   exists k f rect,
     field_index (layer_fields vectorized) "DN" = Some k /\
     In f (List.filter (has_value k 1) (features vectorized)) /\
     QgsGeometry.orientedMinimumBoundingBox (geometry f) = Some rect /\
     QgsGeometry.isGeosValid rect = true /\
     (QgsGeometry.asPolygon rect !! 0%nat = None \/
      exists ring, QgsGeometry.asPolygon rect !! 0%nat = Some ring /\
                   (List.length ring < 5)%nat)).
Proof.
  intros Hpoly Hrun.
  rewrite processAlgorithm_steps in Hrun. cbv zeta in Hrun. rewrite Hpoly in Hrun.
  unfold extractbyattribute in Hrun.
  destruct (field_index (layer_fields vectorized) "DN") as [k|] eqn:Hk.
  2: { injection Hrun as <- _. left. split; reflexivity. }
  destruct (loop _ _ _ _ _ _ _ _) as [[e3|[]] w3] eqn:Hloop; [|discriminate Hrun].
  injection Hrun as -> _.
  apply loop_inl in Hloop.
  2: { unfold featureCount. simpl.
       destruct (List.filter _ _); [now left | now right]. }
  destruct Hloop as (f & Hin & Hf).
  apply classified_inl, measure_inl in Hf as (-> & rect & Hrect & Hvalid & Hring).
  right. split; [reflexivity|].
  exists k, f, rect. split; [reflexivity|]. split; [exact Hin|].
  split; [exact Hrect|]. split; [exact Hvalid | exact Hring].
Qed.

(** X15. Once the polygonization has returned, the arithmetic of a run does
    not raise: no run ends on the [ZeroDivisionError] of a division by the
    width of a rectangle or by the feature count, nor on the [ValueError] of
    the minimum or maximum of an empty list of sides. A run that ends on an
    [IndexError] has met a polygon with [DN = 1] whose valid bounding
    rectangle has no ring of five points. *)
Theorem failures_after_polygonization isC params w e w' vectorized :
  gdal_polygonize (INPUT params) = inr vectorized ->
  processAlgorithm gdal_polygonize distance isC params w = (inl e, w') ->
  e <> ZeroDivisionError /\ e <> ValueError /\
  (e = IndexError ->
   exists k f rect,
     field_index (layer_fields vectorized) "DN" = Some k /\
     In f (List.filter (has_value k 1) (features vectorized)) /\
     QgsGeometry.orientedMinimumBoundingBox (geometry f) = Some rect /\
     QgsGeometry.isGeosValid rect = true /\
     (QgsGeometry.asPolygon rect !! 0%nat = None \/
      exists ring, QgsGeometry.asPolygon rect !! 0%nat = Some ring /\
                   (List.length ring < 5)%nat)).
Proof.
  intros Hpoly Hrun.
  destruct (raising_run_cases isC params w e w' vectorized Hpoly Hrun)
    as [[-> _] | [-> Hring]].
  - split; [discriminate|]. split; discriminate.
  - split; [discriminate|]. split; [discriminate|]. intros _. exact Hring.
Qed.

End ClassifierCoverage.

Section ClassifierCoverageRuns.
Import WaterObjectClassification WaterSamples CoverageSamples.

Lemma never_run_returns :
  processAlgorithm polygonize axis_distance never mask_to_layer earlier
    = (inr "water.gpkg",
       snd (processAlgorithm polygonize axis_distance never mask_to_layer
              earlier)).
Proof. vm_compute. reflexivity. Qed.

Lemma third_run_returns :
  processAlgorithm polygonize axis_distance at_third mask_to_layer earlier
    = (inr "water.gpkg",
       snd (processAlgorithm polygonize axis_distance at_third mask_to_layer
              earlier)).
Proof. vm_compute. reflexivity. Qed.

Lemma short_ring_run_raises :
  processAlgorithm polygonize_short_ring axis_distance never mask_to_layer
                   earlier
    = (inl IndexError,
       snd (processAlgorithm polygonize_short_ring axis_distance never
              mask_to_layer earlier)).
Proof. vm_compute. reflexivity. Qed.

Lemma failed_polygonization_removes_output_witness :
  failing_polygonize (INPUT mask_to_layer) = inl QgsProcessingException /\
  exists w',
    processAlgorithm failing_polygonize axis_distance never mask_to_layer
                     earlier
      = (inl QgsProcessingException, w') /\
    outputs w' = delete (OUTPUT mask_to_layer) (outputs earlier) /\
    outputs w' !! OUTPUT mask_to_layer = None.
Proof.
  assert (Hpoly : failing_polygonize (INPUT mask_to_layer)
                  = inl QgsProcessingException) by reflexivity.
  split; [exact Hpoly|].
  exact (failed_polygonization_removes_output failing_polygonize axis_distance
           never mask_to_layer earlier QgsProcessingException Hpoly).
Defined.

Lemma no_water_polygon_gives_empty_layer_witness :
  polygonize_background (INPUT mask_to_layer) = inr background /\
  field_index (layer_fields background) "DN" = Some 0%nat /\
  List.filter (has_value 0 1) (features background) = [] /\
  exists w',
    processAlgorithm polygonize_background axis_distance at_third mask_to_layer
                     earlier
      = (inr (OUTPUT mask_to_layer), w') /\
    forall out, outputs w' !! OUTPUT mask_to_layer = Some out ->
      out = mk_layer
              (layer_fields background ++
                 [mk_field "area_m2" TDouble; mk_field "perimeter_m" TDouble;
                  mk_field "elongation" TDouble; mk_field "main_axis" TDouble;
                  mk_field "class" TString])
              (wkbType background) (sourceCrs background) [].
Proof.
  assert (Hpoly : polygonize_background (INPUT mask_to_layer) = inr background)
    by reflexivity.
  assert (Hk : field_index (layer_fields background) "DN" = Some 0%nat)
    by reflexivity.
  assert (Hnone : List.filter (has_value 0 1) (features background) = [])
    by reflexivity.
  split; [exact Hpoly|]. split; [exact Hk|]. split; [exact Hnone|].
  exact (no_water_polygon_gives_empty_layer polygonize_background axis_distance
           at_third mask_to_layer earlier background 0%nat Hpoly Hk Hnone).
Defined.

Lemma returning_run_reports_completion_witness :
  let w' := snd (processAlgorithm polygonize axis_distance at_third
                   mask_to_layer earlier) in
  processAlgorithm polygonize axis_distance at_third mask_to_layer earlier
    = (inr "water.gpkg", w') /\
  last (pushed w') = Some " Готово! Классификация завершена.".
Proof.
  split; [exact third_run_returns|].
  exact (returning_run_reports_completion polygonize axis_distance at_third
           mask_to_layer earlier "water.gpkg" _ third_run_returns).
Defined.

Lemma other_destinations_untouched_witness :
  let w' := snd (processAlgorithm polygonize axis_distance never
                   mask_to_layer earlier) in
  processAlgorithm polygonize axis_distance never mask_to_layer earlier
    = (inr "water.gpkg", w') /\
  "other.gpkg" <> OUTPUT mask_to_layer /\
  outputs w' !! "other.gpkg" = outputs earlier !! "other.gpkg".
Proof.
  assert (Hpath : "other.gpkg" <> OUTPUT mask_to_layer) by discriminate.
  split; [exact never_run_returns|]. split; [exact Hpath|].
  exact (other_destinations_untouched polygonize axis_distance never
           mask_to_layer earlier (inr "water.gpkg") _ "other.gpkg"
           never_run_returns Hpath).
Defined.

Lemma third_run_output :
  let w' := snd (processAlgorithm polygonize axis_distance at_third
                   mask_to_layer earlier) in
  outputs w' !! "water.gpkg" =
    Some (default (mk_layer [] 0 EmptyString []) (outputs w' !! "water.gpkg")).
Proof. vm_compute. reflexivity. Qed.

Lemma progress_stays_below_100_witness :
  let w' := snd (processAlgorithm polygonize axis_distance at_third
                   mask_to_layer earlier) in
  let out := default (mk_layer [] 0 EmptyString [])
                     (outputs w' !! "water.gpkg") in
  let total := List.length (List.filter (has_value 0 1) (features polygons)) in
  let written := List.length (features out) in
  let ps := map (fun n => Z.quot (100 * Z.of_nat n) (Z.of_nat total))
                (seq 0 written) in
  polygonize (INPUT mask_to_layer) = inr polygons /\
  field_index (layer_fields polygons) "DN" = Some 0%nat /\
  processAlgorithm polygonize axis_distance at_third mask_to_layer earlier
    = (inr "water.gpkg", w') /\
  outputs w' !! "water.gpkg" = Some out /\
  (written <= total)%nat /\
  (exists before, progress w' = before ++ ps) /\
  Forall (fun p => 0 <= p <= 99) ps /\
  (forall a b pa pb, (a <= b)%nat -> ps !! a = Some pa -> ps !! b = Some pb ->
     pa <= pb) /\
  (written <> 0%nat ->
   last (progress w')
     = Some (Z.quot (100 * (Z.of_nat written - 1)) (Z.of_nat total))).
Proof.
  assert (Hpoly : polygonize (INPUT mask_to_layer) = inr polygons) by reflexivity.
  assert (Hk : field_index (layer_fields polygons) "DN" = Some 0%nat)
    by reflexivity.
  split; [exact Hpoly|]. split; [exact Hk|].
  split; [exact third_run_returns|]. split; [exact third_run_output|].
  exact (progress_stays_below_100 polygonize axis_distance at_third
           mask_to_layer earlier "water.gpkg" _ polygons 0%nat _
           Hpoly Hk third_run_returns third_run_output).
Defined.

Lemma output_schema_witness :
  let w' := snd (processAlgorithm polygonize axis_distance at_third
                   mask_to_layer earlier) in
  let out := default (mk_layer [] 0 EmptyString [])
                     (outputs w' !! "water.gpkg") in
  processAlgorithm polygonize axis_distance at_third mask_to_layer earlier
    = (inr "water.gpkg", w') /\
  outputs w' !! OUTPUT mask_to_layer = Some out /\
  exists vectorized,
    polygonize (INPUT mask_to_layer) = inr vectorized /\
    layer_fields out =
      layer_fields vectorized ++
        [mk_field "area_m2" TDouble; mk_field "perimeter_m" TDouble;
         mk_field "elongation" TDouble; mk_field "main_axis" TDouble;
         mk_field "class" TString] /\
    wkbType out = wkbType vectorized /\
    sourceCrs out = sourceCrs vectorized /\
    Forall (fun g => fields g = layer_fields out) (features out) /\
    (Forall (fun f => List.length (attributes f)
                      = List.length (layer_fields vectorized))
            (features vectorized) ->
     Forall (fun g => List.length (attributes g)
                      = List.length (layer_fields out))
            (features out)).
Proof.
  split; [exact third_run_returns|]. split; [exact third_run_output|].
  exact (output_schema polygonize axis_distance at_third mask_to_layer earlier
           (inr "water.gpkg") _ _ third_run_returns third_run_output).
Defined.

Lemma unmeasured_polygon_label_witness :
  let f := polygon 1 (unbounded 30000 900) in
  (QgsGeometry.orientedMinimumBoundingBox (geometry f) = None \/
   exists rect,
     QgsGeometry.orientedMinimumBoundingBox (geometry f) = Some rect /\
     QgsGeometry.isGeosValid rect = false) /\
  exists g cls,
    classified axis_distance DN f = inr g /\
    last (attributes g) = Some (VString cls) /\
    ((500000 < QgsGeometry.area (geometry f))%Q -> cls = Lake) /\
    ((QgsGeometry.area (geometry f) < 10000)%Q -> cls = Pond) /\
    ((10000 <= QgsGeometry.area (geometry f))%Q ->
     (QgsGeometry.area (geometry f) <= 500000)%Q -> cls = Generic) /\
    cls <> River /\ cls <> Creek.
Proof.
  intros f.
  assert (Hrect : QgsGeometry.orientedMinimumBoundingBox (geometry f) = None \/
            exists rect,
              QgsGeometry.orientedMinimumBoundingBox (geometry f) = Some rect /\
              QgsGeometry.isGeosValid rect = false)
    by (left; reflexivity).
  split; [exact Hrect|].
  exact (unmeasured_polygon_label axis_distance DN f Hrect).
Defined.

Lemma failures_after_polygonization_witness :
  let w' := snd (processAlgorithm polygonize_short_ring axis_distance never
                   mask_to_layer earlier) in
  polygonize_short_ring (INPUT mask_to_layer) = inr with_short_ring /\
  processAlgorithm polygonize_short_ring axis_distance never mask_to_layer
                   earlier
    = (inl IndexError, w') /\
  IndexError <> ZeroDivisionError /\ IndexError <> ValueError /\
  (IndexError = IndexError ->
   exists k f rect,
     field_index (layer_fields with_short_ring) "DN" = Some k /\
     In f (List.filter (has_value k 1) (features with_short_ring)) /\
     QgsGeometry.orientedMinimumBoundingBox (geometry f) = Some rect /\
     QgsGeometry.isGeosValid rect = true /\
     (QgsGeometry.asPolygon rect !! 0%nat = None \/
      exists ring, QgsGeometry.asPolygon rect !! 0%nat = Some ring /\
                   (List.length ring < 5)%nat)).
Proof.
  assert (Hpoly : polygonize_short_ring (INPUT mask_to_layer)
                  = inr with_short_ring) by reflexivity.
  split; [exact Hpoly|]. split; [exact short_ring_run_raises|].
  exact (failures_after_polygonization polygonize_short_ring axis_distance never
           mask_to_layer earlier IndexError _ with_short_ring
           Hpoly short_ring_run_raises).
Defined.

End ClassifierCoverageRuns.
